(** * sony_remote_ble: a shallow embedding of the BLE camera client

    The development follows the layout of the Go repository:
    - [commands.go]: the command registry, the take-photo sequence and the
      two UUID constants with their parsed forms;
    - [client.go]: the connection state, the [Client] struct, its public
      operations and the name filter [containsSonyIdentifier];
    - [internal/ui] (model): the accumulated device list and [addDevice].

    Go strings are byte strings; they are modelled by [string] (a list of
    8-bit characters), so that [length] is Go's [len] and [substring] is
    Go's slicing [s[i:j]].  Byte slices are [list byte].  The registry, a
    Go [map[string]SonyCommand], is a [gmap string SonyCommand]. *)

From Stdlib Require Import ZArith.
From Stdlib.Strings Require Import Byte Ascii String.
From stdpp Require Import base option list strings gmap pretty.

Local Open Scope string_scope.
Local Open Scope list_scope.

(** Equality of bytes is decidable (used to compare byte-codes). *)
#[export] Instance byte_eq_decision : EqDecision byte := Byte.byte_eq_dec.

(** ** commands.go *)

Module Commands.

(** [const SonyServiceUUID], [const CommandCharUUID]. *)
Definition SonyServiceUUID : string := "8000ff00-ff00-ffff-ffff-ffffffffffff".
Definition CommandCharUUID : string := "0000ff01-0000-1000-8000-00805f9b34fb".

(** [type SonyCommand struct { Name string; Code []byte }]. *)
Record SonyCommand : Type := mkSonyCommand {
  Name : string;
  Code : list byte
}.

(** The zero value of the struct, which a Go map read returns for an
    absent key. *)
Definition zeroSonyCommand : SonyCommand := mkSonyCommand "" [].

#[export] Instance SonyCommand_inhabited : Inhabited SonyCommand :=
  populate zeroSonyCommand.

#[export] Instance SonyCommand_eq_dec : EqDecision SonyCommand.
Proof. solve_decision. Defined.

(** The entries of the map literal [Commands], in the order of the
    source. *)
Definition CommandEntries : list (string * SonyCommand) :=
  [ ("focus_down",        mkSonyCommand "Focus Down"        [x01; x07]);
    ("focus_up",          mkSonyCommand "Focus Up"          [x01; x06]);
    ("autofocus_down",    mkSonyCommand "AutoFocus Down"    [x01; x15]);
    ("autofocus_up",      mkSonyCommand "AutoFocus Up"      [x01; x14]);
    ("shutter_half_down", mkSonyCommand "Shutter Half Down" [x01; x07]);
    ("shutter_half_up",   mkSonyCommand "Shutter Half Up"   [x01; x06]);
    ("shutter_full_down", mkSonyCommand "Shutter Full Down" [x01; x09]);
    ("shutter_full_up",   mkSonyCommand "Shutter Full Up"   [x01; x08]);
    ("record_toggle",     mkSonyCommand "Toggle Record"     [x01; x0e]);
    ("record_down",       mkSonyCommand "Record Down"       [x01; x0f]);
    ("zoom_in_down",      mkSonyCommand "Zoom In Down"      [x02; x6d; x20]);
    ("zoom_in_up",        mkSonyCommand "Zoom In Up"        [x02; x6c; x00]);
    ("zoom_out_down",     mkSonyCommand "Zoom Out Down"     [x02; x6b; x20]);
    ("zoom_out_up",       mkSonyCommand "Zoom Out Up"       [x02; x6a; x00]);
    ("c1_down",           mkSonyCommand "C1 Down"           [x01; x21]);
    ("c1_up",             mkSonyCommand "C1 Up"             [x01; x20]) ].

(** [var Commands = map[string]SonyCommand{ ... }]. *)
Definition Commands : gmap string SonyCommand := list_to_map CommandEntries.

(** A Go map read [m[k]]: the stored value, or the zero value. *)
Definition index (m : gmap string SonyCommand) (k : string) : SonyCommand :=
  default zeroSonyCommand (m !! k).

(** [func TakePhotoSequence() []SonyCommand], as a function of the package
    variable it reads. *)
Definition TakePhotoSequence_of (reg : gmap string SonyCommand)
  : list SonyCommand :=
  [ index reg "focus_down";
    index reg "shutter_full_down";
    index reg "shutter_full_up";
    index reg "focus_up" ].

Definition TakePhotoSequence : list SonyCommand :=
  TakePhotoSequence_of Commands.

End Commands.

Import Commands.

(** ** Go values shared by the packages *)

(** A Go [error] value, as this program builds them: [errors.New(msg)],
    and [fmt.Errorf(prefix ++ "%w", err)], which wraps [err].  Errors that
    come out of the radio stack are [errorString]s with the stack's text. *)
Inductive error : Type :=
| errorString (msg : string)
| wrapError (prefix : string) (cause : error).

#[export] Instance error_eq_dec : EqDecision error.
Proof. solve_decision. Defined.

(** [err.Error()]. *)
Fixpoint Error_text (e : error) : string :=
  match e with
  | errorString msg => msg
  | wrapError prefix cause => prefix +:+ Error_text cause
  end.

Definition errors_New (msg : string) : error := errorString msg.

(** ** The radio stack (package [tinygo.org/x/bluetooth])

    The stack is an external dependency of the repository.  Its handles
    are opaque; they are numbered here, 0 being the zero value of the Go
    struct. *)

Module bluetooth.

(** [bluetooth.UUID] is [[4]uint32]. *)
Definition UUID : Type := list Z.

Definition zeroUUID : UUID := [0; 0; 0; 0]%Z.

(** [bluetooth.Address], an opaque platform identifier with its canonical
    string form [Address.String()]. *)
Record Address : Type := mkAddress { Address_String : string }.

Definition Device : Type := N.
Definition DeviceService : Type := N.
Definition DeviceCharacteristic : Type := N.

Definition errInvalidUUID : error :=
  errors_New "bluetooth: failed to parse UUID".

Definition byteval (c : ascii) : Z := Z.of_N (N_of_ascii c).

(** The value of a hexadecimal digit, [None] for any other byte. *)
Definition nibble_of (c : ascii) : option Z :=
  let v := byteval c in
  if (48 <=? v)%Z && (v <=? 57)%Z then Some (v - 48)%Z
  else if (97 <=? v)%Z && (v <=? 102)%Z then Some (v - 97 + 10)%Z
  else if (65 <=? v)%Z && (v <=? 70)%Z then Some (v - 65 + 10)%Z
  else None.

(** [uuid[3-uuidIndex/8] |= uint32(nibble) << (4 * (7 - uuidIndex%8))]. *)
Definition setNibble (uuid : UUID) (uuidIndex : nat) (nibble : Z) : UUID :=
  let w := (3 - uuidIndex / 8)%nat in
  let sh := Z.of_nat (4 * (7 - uuidIndex mod 8)) in
  <[ w := Z.lor (uuid !!! w) (Z.shiftl nibble sh mod 2 ^ 32) ]> uuid.

(** The loop of [bluetooth.ParseUUID] over the bytes of the text. *)
Fixpoint parseLoop (s : string) (uuid : UUID) (uuidIndex : nat)
  : UUID * option error :=
  match s with
  | EmptyString =>
      if decide (uuidIndex = 32%nat) then (uuid, None)
      else (uuid, Some errInvalidUUID)
  | String c rest =>
      if Ascii.eqb c "-"%char then parseLoop rest uuid uuidIndex
      else
        match nibble_of c with
        | None => (uuid, Some errInvalidUUID)
        | Some nibble =>
            if decide (31 < uuidIndex)%nat then (uuid, Some errInvalidUUID)
            else parseLoop rest (setNibble uuid uuidIndex nibble) (S uuidIndex)
        end
  end.

(** Model of the library function [bluetooth.ParseUUID], which is not part
    of this repository: it reads the canonical text
    [xxxxxxxx-xxxx-xxxx-xxxx-xxxxxxxxxxxx], skipping dashes, accepting
    exactly 32 hexadecimal digits of either case, and fills the four
    32-bit words from the most significant digit down; any other byte, a
    33rd digit or fewer than 32 digits give [errInvalidUUID]. *)
Definition ParseUUID (s : string) : UUID * option error :=
  parseLoop s zeroUUID 0.

End bluetooth.

Import bluetooth.

(** [func ServiceUUID() bluetooth.UUID]: [uuid, _ := ParseUUID(...)]. *)
Definition ServiceUUID : UUID := fst (ParseUUID SonyServiceUUID).

(** [func CharacteristicUUID() bluetooth.UUID]. *)
Definition CharacteristicUUID : UUID := fst (ParseUUID CommandCharUUID).

(** ** client.go: state and effects *)

(** [type ConnectionState int] with its five constants. *)
Inductive ConnectionState : Type :=
| Disconnected
| Scanning
| Connecting
| Connected
| Error.

#[export] Instance ConnectionState_eq_dec : EqDecision ConnectionState.
Proof. solve_decision. Defined.

(** [func (cs ConnectionState) String() string]. *)
Definition ConnectionState_String (cs : ConnectionState) : string :=
  match cs with
  | Disconnected => "Disconnected"
  | Scanning => "Scanning"
  | Connecting => "Connecting"
  | Connected => "Connected"
  | Error => "Error"
  end.

(** [type Client struct]; the adapter pointer is the radio stack itself
    and is not a field here.  [stopScan] is a channel of capacity 1: the
    list is its buffer. *)
Record Client : Type := mkClient {
  device : Device;
  service : DeviceService;
  char : DeviceCharacteristic;
  state : ConnectionState;
  deviceName : string;
  lastError : option error;
  stopScan : list bool
}.

(** [type DeviceInfo struct]. *)
Record DeviceInfo : Type := mkDeviceInfo {
  DName : string;
  DAddress : Address;
  AddressStr : string;
  RSSI : Z
}.

(** One call of [char.WriteWithoutResponse(data)] and what it returned. *)
Record WriteCall : Type := mkWriteCall {
  wchar : DeviceCharacteristic;
  wdata : list byte;
  wresult : option error
}.

(** What the program does to the outside: the calls of
    [WriteWithoutResponse] in the order they were made, the time spent in
    [time.Sleep] (nanoseconds), the links opened by [adapter.Connect] and
    not yet closed, the number of [adapter.StopScan()] calls and the scan
    goroutines started. *)
Record World : Type := mkWorld {
  writes : list WriteCall;
  slept : Z;
  links : list Device;
  stopScanCalls : nat;
  scanTasks : nat
}.

(** The behaviour of the radio stack, which may depend on everything that
    happened so far.  Each function returns the pair a Go call returns. *)
Record Radio : Type := mkRadio {
  adapter_Enable : option error;
  adapter_Connect : World -> Address -> Device * option error;
  device_DiscoverServices :
    World -> Device -> list UUID -> list DeviceService * option error;
  service_DiscoverCharacteristics :
    World -> DeviceService -> list UUID
    -> list DeviceCharacteristic * option error;
  device_Disconnect : World -> Device -> option error;
  char_WriteWithoutResponse :
    World -> DeviceCharacteristic -> list byte -> option error
}.

(** The program state: the one [Client] object and the outside. *)
Definition Sys : Type := Client * World.

(** A method of [*Client]: it reads and updates the program state. *)
Definition M (A : Type) : Type := Sys -> A * Sys.

Definition ret {A} (a : A) : M A := fun s => (a, s).

Definition bind {A B} (m : M A) (k : A -> M B) : M B :=
  fun s => let (a, s') := m s in k a s'.

Notation "x <- m ;; k" := (bind m (fun x => k))
  (at level 100, m at next level, right associativity).
Notation "m ;;; k" := (bind m (fun _ => k))
  (at level 100, right associativity).

Definition getClient : M Client := fun s => (fst s, s).
Definition getWorld : M World := fun s => (snd s, s).
Definition modClient (f : Client -> Client) : M unit :=
  fun s => (tt, (f (fst s), snd s)).
Definition modWorld (f : World -> World) : M unit :=
  fun s => (tt, (fst s, f (snd s))).

(** Field assignments [c.f = v]. *)
Definition set_state (v : ConnectionState) (c : Client) : Client :=
  mkClient (device c) (service c) (char c) v (deviceName c) (lastError c)
           (stopScan c).
Definition set_lastError (v : option error) (c : Client) : Client :=
  mkClient (device c) (service c) (char c) (state c) (deviceName c) v
           (stopScan c).
Definition set_deviceName (v : string) (c : Client) : Client :=
  mkClient (device c) (service c) (char c) (state c) v (lastError c)
           (stopScan c).
Definition set_device (v : Device) (c : Client) : Client :=
  mkClient v (service c) (char c) (state c) (deviceName c) (lastError c)
           (stopScan c).
Definition set_service (v : DeviceService) (c : Client) : Client :=
  mkClient (device c) v (char c) (state c) (deviceName c) (lastError c)
           (stopScan c).
Definition set_char (v : DeviceCharacteristic) (c : Client) : Client :=
  mkClient (device c) (service c) v (state c) (deviceName c) (lastError c)
           (stopScan c).
Definition set_stopScan (v : list bool) (c : Client) : Client :=
  mkClient (device c) (service c) (char c) (state c) (deviceName c)
           (lastError c) v.

(** [fmt.Errorf("failed to ...: %w", err)]. *)
Definition fmt_Errorf_w (prefix : string) (err : error) : error :=
  wrapError prefix err.

Section WithRadio.

Variable radio : Radio.

(** [NewClient()]: enable the adapter, then a fresh client. *)
Definition NewClient : option Client * option error :=
  match adapter_Enable radio with
  | Some err => (None, Some (fmt_Errorf_w "failed to enable adapter: " err))
  | None => (Some (mkClient 0%N 0%N 0%N Disconnected "" None []), None)
  end.

(** [State()], [DeviceName()], [LastError()]. *)
Definition State : M ConnectionState := c <- getClient ;; ret (state c).
Definition DeviceName : M string := c <- getClient ;; ret (deviceName c).
Definition LastError : M (option error) := c <- getClient ;; ret (lastError c).

(** The calls into the radio stack, with their effect on the outside. *)
Definition call_Connect (address : Address) : M (Device * option error) :=
  w <- getWorld ;;
  let r := adapter_Connect radio w address in
  match snd r with
  | None =>
      modWorld (fun w => mkWorld (writes w) (slept w) (fst r :: links w)
                                 (stopScanCalls w) (scanTasks w)) ;;;
      ret r
  | Some _ => ret r
  end.

Definition call_DiscoverServices (d : Device) (uuids : list UUID)
  : M (list DeviceService * option error) :=
  w <- getWorld ;; ret (device_DiscoverServices radio w d uuids).

Definition call_DiscoverCharacteristics (s : DeviceService)
  (uuids : list UUID) : M (list DeviceCharacteristic * option error) :=
  w <- getWorld ;; ret (service_DiscoverCharacteristics radio w s uuids).

Definition call_Disconnect (d : Device) : M (option error) :=
  w <- getWorld ;;
  let r := device_Disconnect radio w d in
  match r with
  | None =>
      modWorld (fun w => mkWorld (writes w) (slept w)
                                 (filter (fun x => x <> d) (links w))
                                 (stopScanCalls w) (scanTasks w)) ;;;
      ret r
  | Some _ => ret r
  end.

Definition call_WriteWithoutResponse (ch : DeviceCharacteristic)
  (data : list byte) : M (option error) :=
  w <- getWorld ;;
  let r := char_WriteWithoutResponse radio w ch data in
  modWorld (fun w => mkWorld (writes w ++ [mkWriteCall ch data r]) (slept w)
                             (links w) (stopScanCalls w) (scanTasks w)) ;;;
  ret r.

Definition call_StopScan : M unit :=
  modWorld (fun w => mkWorld (writes w) (slept w) (links w)
                             (S (stopScanCalls w)) (scanTasks w)).

(** [time.Sleep(d)]. *)
Definition time_Sleep (d : Z) : M unit :=
  modWorld (fun w => mkWorld (writes w) (slept w + d) (links w)
                             (stopScanCalls w) (scanTasks w)).

(** [go func() { ... }()]: the scan goroutine is started; it runs beside
    the caller. *)
Definition go_scanTask : M unit :=
  modWorld (fun w => mkWorld (writes w) (slept w) (links w)
                             (stopScanCalls w) (S (scanTasks w))).

(** ** client.go: the public operations *)

(** [func (c *Client) ScanForDevices(ctx, deviceChan) error]: the part
    that runs in the caller. *)
Definition ScanForDevices : M (option error) :=
  modClient (set_state Scanning) ;;;
  modClient (set_lastError None) ;;;
  go_scanTask ;;;
  ret None.

(** [func (c *Client) StopScan()]: a non-blocking send on [stopScan],
    [adapter.StopScan()], then the state goes back from [Scanning]. *)
Definition StopScan : M unit :=
  c <- getClient ;;
  (if decide (length (stopScan c) < 1)%nat
   then modClient (set_stopScan (stopScan c ++ [true]))
   else ret tt) ;;;
  call_StopScan ;;;
  c <- getClient ;;
  if decide (state c = Scanning)
  then modClient (set_state Disconnected)
  else ret tt.

(** The failure exit of [Connect]:
    [c.lastError = e; c.state = Error; return c.lastError]. *)
Definition failConnect (e : error) : M (option error) :=
  modClient (set_lastError (Some e)) ;;;
  modClient (set_state Error) ;;;
  c <- getClient ;;
  ret (lastError c).

(** [func (c *Client) Connect(address bluetooth.Address) error]. *)
Definition Connect (address : Address) : M (option error) :=
  modClient (set_state Connecting) ;;;
  modClient (set_lastError None) ;;;
  r <- call_Connect address ;;
  match snd r with
  | Some err => failConnect (fmt_Errorf_w "failed to connect: " err)
  | None =>
      modClient (set_device (fst r)) ;;;
      r <- call_DiscoverServices (fst r) [ServiceUUID] ;;
      match snd r with
      | Some err =>
          failConnect (fmt_Errorf_w "failed to discover services: " err)
      | None =>
          match fst r with
          | [] => failConnect (errors_New "Sony camera service not found")
          | s0 :: _ =>
              modClient (set_service s0) ;;;
              c <- getClient ;;
              r <- call_DiscoverCharacteristics (service c)
                     [CharacteristicUUID] ;;
              match snd r with
              | Some err =>
                  failConnect
                    (fmt_Errorf_w "failed to discover characteristics: " err)
              | None =>
                  match fst r with
                  | [] =>
                      failConnect
                        (errors_New "command characteristic not found")
                  | c0 :: _ =>
                      modClient (set_char c0) ;;;
                      modClient (set_state Connected) ;;;
                      modClient (set_deviceName (Address_String address)) ;;;
                      ret None
                  end
              end
          end
      end
  end.

(** [func (c *Client) Disconnect() error]. *)
Definition Disconnect : M (option error) :=
  c <- getClient ;;
  r <- (if decide (state c = Connected)
        then call_Disconnect (device c)
        else ret None) ;;
  match r with
  | Some err =>
      modClient (set_lastError (Some err)) ;;;
      modClient (set_state Error) ;;;
      ret (Some err)
  | None =>
      modClient (set_state Disconnected) ;;;
      modClient (set_deviceName "") ;;;
      ret None
  end.

(** [func (c *Client) SendCommand(cmd SonyCommand) error]. *)
Definition SendCommand (cmd : SonyCommand) : M (option error) :=
  c <- getClient ;;
  if decide (state c <> Connected)
  then ret (Some (errors_New "not connected to device"))
  else
    err <- call_WriteWithoutResponse (char c) (Code cmd) ;;
    match err with
    | Some err =>
        modClient (set_lastError
          (Some (fmt_Errorf_w ("failed to send command " +:+ Name cmd +:+ ": ")
                              err))) ;;;
        c <- getClient ;;
        ret (lastError c)
    | None => ret None
    end.

(** [func (c *Client) SendCommandSequence(commands, delay) error]. *)
Fixpoint SendCommandSequence (commands : list SonyCommand) (delay : Z)
  : M (option error) :=
  match commands with
  | [] => ret None
  | cmd :: rest =>
      err <- SendCommand cmd ;;
      match err with
      | Some err => ret (Some err)
      | None =>
          (if decide (delay > 0)%Z then time_Sleep delay else ret tt) ;;;
          SendCommandSequence rest delay
      end
  end.

(** [time.Millisecond], in nanoseconds. *)
Definition Millisecond : Z := 1000000.

(** [func (c *Client) TakePhoto() error]. *)
Definition TakePhoto : M (option error) :=
  SendCommandSequence TakePhotoSequence (50 * Millisecond).

End WithRadio.

(** ** client.go: the name filter *)

(** Go's [len(s)] and [s[i:j]] on a string. *)
Definition len (s : string) : nat := String.length s.
Definition slice (s : string) (i j : nat) : string := substring i (j - i) s.

(** The alpha symbol of the source, U+03B1, is the two bytes CE B1. *)
Definition alphaSymbol : string := String "206" (String "177" EmptyString).

(** [sonyIdentifiers := []string{...}]. *)
Definition sonyIdentifiers : list string :=
  [ "Sony"; "ILCE"; "DSC"; "FX"; alphaSymbol; "Alpha" ].

(** The inner loop [for i := ...; i <= len(name)-len(identifier); i++],
    entered at index [i] with [n] iterations left. *)
Fixpoint innerLoop (name identifier : string) (i n : nat) : bool :=
  match n with
  | O => false
  | S n' =>
      if decide (slice name i (i + len identifier) = identifier) then true
      else innerLoop name identifier (S i) n'
  end.

(** The body of the outer loop for one identifier: [true] when it
    returns [true]. *)
Definition matchIdentifier (name identifier : string) : bool :=
  if decide (len identifier <= len name)%nat
  then innerLoop name identifier 0 (len name - len identifier + 1)
  else false.

(** The outer loop [for _, identifier := range sonyIdentifiers]. *)
Fixpoint outerLoop (name : string) (identifiers : list string) : bool :=
  match identifiers with
  | [] => false
  | identifier :: rest =>
      if matchIdentifier name identifier then true else outerLoop name rest
  end.

(** [func containsSonyIdentifier(name string) bool]. *)
Definition containsSonyIdentifier (name : string) : bool :=
  outerLoop name sonyIdentifiers.

(** ** internal/ui: the device list of the model *)

Module ui.

(** [type Model struct], the fields that [addDevice] and [addLog] use. *)
Record Model : Type := mkModel {
  devices : list DeviceInfo;
  selected : Z;
  scanning : bool;
  logs : list string
}.

(** [func (m *Model) addLog(message string)]; [timestamp] is
    [time.Now().Format("15:04:05")]. *)
Definition addLog (timestamp message : string) (m : Model) : Model :=
  let logs1 := logs m ++ ["[" +:+ timestamp +:+ "] " +:+ message] in
  let logs2 := if decide (10 < length logs1)%nat then drop 1 logs1 else logs1 in
  mkModel (devices m) (selected m) (scanning m) logs2.

(** The loop of [addDevice]: [true] when some [d] has
    [d.AddressStr == device.AddressStr], where the function returns. *)
Fixpoint alreadyExists (ds : list DeviceInfo) (device : DeviceInfo) : bool :=
  match ds with
  | [] => false
  | d :: rest =>
      if decide (AddressStr d = AddressStr device) then true
      else alreadyExists rest device
  end.

(** [func (m *Model) addDevice(device sony_remote_ble.DeviceInfo)]. *)
Definition addDevice (timestamp : string) (m : Model) (device : DeviceInfo)
  : Model :=
  if alreadyExists (devices m) device then m
  else
    addLog timestamp
      ("Found: " +:+ DName device +:+ " (" +:+ AddressStr device +:+ ")")
      (mkModel (devices m ++ [device]) (selected m) (scanning m) (logs m)).

(** The [deviceFoundMsg]s of a scan session, each with the clock reading
    at its arrival, applied in order. *)
Definition addDevices (m : Model) (found : list (string * DeviceInfo))
  : Model :=
  fold_left (fun m x => addDevice (fst x) m (snd x)) found m.

(** The [scanStartMsg] case of [Update], which opens a scan session with
    an empty list: [m.scanning = true; m.devices = make(..., 0);
    m.selected = 0; m.addLog(...)]. *)
Definition scanStart (timestamp : string) (m : Model) : Model :=
  addLog timestamp "Starting scan for Sony cameras..."
    (mkModel [] 0 true (logs m)).

End ui.

(** * Vocabulary of the properties *)

(** ** The protocol table *)

(** The table of byte-codes as the protocol description lists it
    (key, bytes). *)
Definition listed_bytecodes : list (string * list byte) :=
  [ ("focus_down", [x01; x07]); ("focus_up", [x01; x06]);
    ("autofocus_down", [x01; x15]); ("autofocus_up", [x01; x14]);
    ("shutter_half_down", [x01; x07]); ("shutter_half_up", [x01; x06]);
    ("shutter_full_down", [x01; x09]); ("shutter_full_up", [x01; x08]);
    ("record_toggle", [x01; x0e]); ("record_down", [x01; x0f]);
    ("zoom_in_down", [x02; x6d; x20]); ("zoom_in_up", [x02; x6c; x00]);
    ("zoom_out_down", [x02; x6b; x20]); ("zoom_out_up", [x02; x6a; x00]);
    ("c1_down", [x01; x21]); ("c1_up", [x01; x20]) ].

(** What the registry answers for a key: the byte-code, if the key is
    registered. *)
Definition bytecode_of (key : string) : option (list byte) :=
  Code <$> (Commands !! key).

(** ** Sample radio stacks and program states *)

(** Some radio stacks: one on which every call succeeds, one whose writes
    all fail, one whose second write fails, one that refuses to close a
    link. *)
Definition radioOk : Radio :=
  mkRadio None
    (fun _ _ => (1%N, None))
    (fun _ _ _ => ([1%N], None))
    (fun _ _ _ => ([1%N], None))
    (fun _ _ => None)
    (fun _ _ _ => None).

Definition radioWriteFails : Radio :=
  mkRadio None
    (fun _ _ => (1%N, None))
    (fun _ _ _ => ([1%N], None))
    (fun _ _ _ => ([1%N], None))
    (fun _ _ => None)
    (fun _ _ _ => Some (errorString "write rejected")).

Definition radioSecondWriteFails : Radio :=
  mkRadio None
    (fun _ _ => (1%N, None))
    (fun _ _ _ => ([1%N], None))
    (fun _ _ _ => ([1%N], None))
    (fun _ _ => None)
    (fun w _ _ => if decide (length (writes w) = 1%nat)
                  then Some (errorString "write rejected") else None).

Definition radioDisconnectFails : Radio :=
  mkRadio None
    (fun _ _ => (1%N, None))
    (fun _ _ _ => ([1%N], None))
    (fun _ _ _ => ([1%N], None))
    (fun _ _ => Some (errorString "link busy"))
    (fun _ _ _ => None).

(** A device that does not offer the camera service. *)
Definition radioNoService : Radio :=
  mkRadio None
    (fun _ _ => (1%N, None))
    (fun _ _ _ => ([], None))
    (fun _ _ _ => ([1%N], None))
    (fun _ _ => None)
    (fun _ _ _ => None).

(** The client as [NewClient] makes it, and the outside before anything
    happened. *)
Definition freshClient : Client :=
  mkClient 0%N 0%N 0%N Disconnected "" None [].
Definition world0 : World := mkWorld [] 0 [] 0 0.

(** A client connected to the camera at AA:BB:CC:DD:EE:FF. *)
Definition cameraAddress : Address := mkAddress "AA:BB:CC:DD:EE:FF".
Definition connectedSys : Sys :=
  snd (Connect radioOk cameraAddress (freshClient, world0)).

Definition focus_down : SonyCommand := index Commands "focus_down".
Definition shutter_full_down : SonyCommand :=
  index Commands "shutter_full_down".

Definition errNotConnected : error := errors_New "not connected to device".

(** The error [SendCommand] makes of a failed write. *)
Definition errSend (cmd : SonyCommand) (cause : error) : error :=
  fmt_Errorf_w ("failed to send command " +:+ Name cmd +:+ ": ") cause.

(** ** Outcome of a command sequence *)

(** The write calls that sending [cmds] on the client's characteristic
    makes when each of them succeeds. *)
Definition okCalls (c : Client) (cmds : list SonyCommand) : list WriteCall :=
  map (fun cmd => mkWriteCall (char c) (Code cmd) None) cmds.

(** The outcome of [SendCommandSequence]: either every command was
    written, in the declared order, or the sequence stopped at the first
    command whose [SendCommand] failed. *)
Definition sequenceOutcome (radio : Radio) (commands : list SonyCommand)
  (delay : Z) (c : Client) (w : World) (res : option error * Sys) : Prop :=
  match res with
  | (None, (c', w')) =>
      c' = c /\ writes w' = writes w ++ okCalls c commands
  | (Some e, (c', w')) =>
      exists sent cmd rest w1 attempt,
        commands = sent ++ cmd :: rest
        /\ SendCommandSequence radio sent delay (c, w) = (None, (c, w1))
        /\ SendCommand radio cmd (c, w1) = (Some e, (c', w'))
        /\ writes w' = writes w ++ okCalls c sent ++ attempt
        /\ (attempt = []
            \/ exists cause,
                 attempt = [mkWriteCall (char c) (Code cmd) (Some cause)])
  end.

(** The write calls made by a run: those logged after the [n] calls that
    were there before. *)
Definition newWrites (before : World) (after : Sys) : list WriteCall :=
  drop (length (writes before)) (writes (snd after)).

(** ** The connection state machine *)

(** The public operations of the client that may assign [c.state]. *)
Inductive Operation : Type :=
| OpScanForDevices
| OpStopScan
| OpConnect (address : Address)
| OpDisconnect
| OpSendCommand (cmd : SonyCommand).

(** Running an operation; [StopScan] has no result, which reads as nil. *)
Definition perform (radio : Radio) (op : Operation) : M (option error) :=
  match op with
  | OpScanForDevices => ScanForDevices
  | OpStopScan => StopScan ;;; ret None
  | OpConnect address => Connect radio address
  | OpDisconnect => Disconnect radio
  | OpSendCommand cmd => SendCommand radio cmd
  end.

Definition stateAfter (radio : Radio) (op : Operation) (s : Sys)
  : ConnectionState :=
  state (fst (snd (perform radio op s))).

(** The transitions that the design description enumerates, by the
    operation that takes them (start state, end state of the call):
    scan from [Disconnected], or from [Error], which a new scan or connect
    leaves, to [Scanning]; stop from [Scanning] to [Disconnected], else no
    change; connect from [Disconnected] or [Error] through [Connecting] to
    [Connected] or [Error]; disconnect from [Connected] to [Disconnected],
    to [Error] when it fails, a no-op when already [Disconnected]; a
    command keeps the state, or takes [Connected] to [Error] when the
    write fails. *)
Definition enumerated (op : Operation) (s s' : ConnectionState) : bool :=
  match op, s, s' with
  | OpScanForDevices, (Disconnected | Error), Scanning => true
  | OpStopScan, Scanning, Disconnected => true
  | OpStopScan, _, _ => bool_decide (s = s' /\ s <> Scanning)
  | OpConnect _, (Disconnected | Error), (Connected | Error) => true
  | OpDisconnect, Connected, (Disconnected | Error) => true
  | OpDisconnect, Disconnected, Disconnected => true
  | OpSendCommand _, Connected, Error => true
  | OpSendCommand _, _, _ => bool_decide (s = s')
  | _, _, _ => false
  end.

(** The start states for which the description enumerates a transition
    of the operation. *)
Definition enumeratedStart (op : Operation) (s : ConnectionState) : bool :=
  match op, s with
  | OpScanForDevices, (Disconnected | Error) => true
  | OpStopScan, _ => true
  | OpConnect _, (Disconnected | Error) => true
  | OpDisconnect, (Connected | Disconnected) => true
  | OpSendCommand _, _ => true
  | _, _ => false
  end.

(** The claim that every operation, from every start state, follows an
    enumerated transition. *)
Definition onlyEnumeratedTransitions : Prop :=
  forall radio op s,
    enumerated op (state (fst s)) (stateAfter radio op s) = true.

(** The end state of an operation as a function of the start state and
    of whether the call returned an error.  A command that returns an
    error from [Connected] is one whose write failed: that is the
    write-failure transition of the state machine, to [Error], and no
    end state is given for it here ([None]). *)
Definition transition (op : Operation) (s : ConnectionState)
  (withError : bool) : option ConnectionState :=
  match op with
  | OpScanForDevices => Some Scanning
  | OpStopScan => Some (if decide (s = Scanning) then Disconnected else s)
  | OpConnect _ => Some (if withError then Error else Connected)
  | OpDisconnect => Some (if withError then Error else Disconnected)
  | OpSendCommand _ =>
      if withError && bool_decide (s = Connected) then None else Some s
  end.

Definition failed (r : option error) : bool :=
  match r with Some _ => true | None => false end.

(** ** Containment and address lists *)

(** Substring containment on byte strings: [sub] occurs in [name]. *)
Definition contains (name sub : string) : Prop :=
  exists pre post, name = pre +:+ sub +:+ post.

Import ui.

(** The address strings of a device list. *)
Definition addresses (ds : list DeviceInfo) : list string :=
  map AddressStr ds.

(** The test "this record has address string [a]". *)
Definition hasAddress (a : string) (d : DeviceInfo) : bool :=
  bool_decide (AddressStr d = a).

(** * The rest of the client and of the model *)

(** ** client.go: the scan goroutine *)

(** [bluetooth.ScanResult]: what the callback of [adapter.Scan] reads of
    one advertisement. *)
Record ScanResult : Type := mkScanResult {
  LocalName : string;
  SAddress : Address;
  SRSSI : Z
}.

(** The case a [select] over [<-c.stopScan], [<-ctx.Done()] and [default]
    takes. *)
Inductive Selected : Type :=
| SelStop
| SelDone
| SelDefault.

(** The [select] that both the loop and the callback start with.  A
    pending token on [stopScan] is received (and so removed); a cancelled
    context is seen; when both are ready the runtime picks one, which
    [pick] stands for; [default] runs when neither is. *)
Definition selectCancel (pick ctxDone : bool) : M Selected :=
  c <- getClient ;;
  match stopScan c, ctxDone with
  | _ :: rest, false => modClient (set_stopScan rest) ;;; ret SelStop
  | _ :: rest, true =>
      if pick then modClient (set_stopScan rest) ;;; ret SelStop
      else ret SelDone
  | [], true => ret SelDone
  | [], false => ret SelDefault
  end.

(** The callback handed to [adapter.Scan], run on one advertisement: the
    record it sends on [deviceChan], if it gets to the send. *)
Definition scanCallback (pick ctxDone : bool) (result : ScanResult)
  : M (option DeviceInfo) :=
  sel <- selectCancel pick ctxDone ;;
  match sel with
  | SelStop => ret None
  | SelDone => ret None
  | SelDefault =>
      let name := LocalName result in
      if decide (name = "") then ret None
      else if containsSonyIdentifier name
      then ret (Some (mkDeviceInfo name (SAddress result)
                        (Address_String (SAddress result)) (SRSSI result)))
      else ret None
  end.

(** Where the goroutine is: at the [select] that opens an iteration of
    its loop, inside [adapter.Scan], or returned. *)
Inductive TaskPoint : Type :=
| AtSelect
| InScan
| Exited.

(** The [select] at the top of the loop: return, or go on to
    [adapter.Scan]. *)
Definition taskSelect (pick ctxDone : bool) : M TaskPoint :=
  sel <- selectCancel pick ctxDone ;;
  match sel with
  | SelStop => ret Exited
  | SelDone => ret Exited
  | SelDefault => ret InScan
  end.

(** [adapter.Scan] has returned [err]: an error is recorded and ends the
    goroutine, otherwise the loop goes round. *)
Definition taskScanReturned (err : option error) : M TaskPoint :=
  match err with
  | Some e =>
      modClient (set_lastError (Some e)) ;;;
      modClient (set_state Error) ;;;
      ret Exited
  | None => ret AtSelect
  end.

(** ** Vocabulary of the further properties *)

(** The errors [Connect] can return. *)
Definition isConnectError (e : error) : Prop :=
  (exists cause, e = wrapError "failed to connect: " cause)
  \/ (exists cause, e = wrapError "failed to discover services: " cause)
  \/ e = errorString "Sony camera service not found"
  \/ (exists cause,
        e = wrapError "failed to discover characteristics: " cause)
  \/ e = errorString "command characteristic not found".

(** The number of calls of a write log that returned no error. *)
Definition successes (calls : list WriteCall) : nat :=
  length (filter (fun wc => wresult wc = None) calls).

(** The time [SendCommandSequence] sleeps for [n] sent commands. *)
Definition sleepFor (delay : Z) (n : nat) : Z :=
  if decide (delay > 0)%Z then (delay * Z.of_nat n)%Z else 0%Z.

(** The outside at the moment [SendCommandSequence] has sent the commands
    [sent] of its list, each written without error: their calls are
    logged, and [delay] was slept once after each of them. *)
Definition worldAfter (c : Client) (w : World) (sent : list SonyCommand)
  (delay : Z) : World :=
  mkWorld (writes w ++ okCalls c sent)
          (slept w + sleepFor delay (length sent))
          (links w) (stopScanCalls w) (scanTasks w).

(** A camera that needs spacing: it takes a write only when 50 ms were
    slept for every write made before it, and rejects one that comes
    sooner. *)
Definition radioNeedsSpacing : Radio :=
  mkRadio None
    (fun _ _ => (1%N, None))
    (fun _ _ _ => ([1%N], None))
    (fun _ _ _ => ([1%N], None))
    (fun _ _ => None)
    (fun w _ _ =>
       if decide (50 * Millisecond * Z.of_nat (length (writes w)) <= slept w)%Z
       then None else Some (errorString "too soon")).

(** ** internal/ui: the model, its messages and its commands *)

(** [func (m *Model) getLastLogs(n int) []string]; [None] is the panic
    of slicing out of range, which a negative [n] runs into. *)
Definition getLastLogs (m : Model) (n : Z) : option (list string) :=
  let l := Z.of_nat (length (logs m)) in
  if decide (l <= n)%Z then Some (logs m)
  else
    let lo := (l - n)%Z in
    if decide (0 <= lo <= l)%Z then Some (drop (Z.to_nat lo) (logs m))
    else None.

(** A Go [int] is 64 bits wide here; arithmetic wraps around. *)
Definition wrapInt (x : Z) : Z :=
  ((x + 2 ^ 63) mod 2 ^ 64 - 2 ^ 63)%Z.

(** The width of the log box, as both views compute it from [m.width]. *)
Definition logWidth (width : Z) : Z :=
  let logWidth := 60%Z in
  let logWidth :=
    if decide (width > 20)%Z then wrapInt (width - 12) else logWidth in
  if decide (logWidth < 40)%Z then 40%Z else logWidth.

(** The width of the container: [max(m.width-2, 60)] in
    [deviceListView], and the same by an [if] in [controlView]. *)
Definition containerWidth_deviceList (width : Z) : Z :=
  Z.max (wrapInt (width - 2)) 60.

Definition containerWidth_control (width : Z) : Z :=
  let containerWidth := wrapInt (width - 2) in
  if decide (containerWidth < 60)%Z then 60%Z else containerWidth.

(** [type AppMode int]. *)
Inductive AppMode : Type :=
| ModeDeviceList
| ModeControl.

(** [tea.KeyMsg]: what the handlers read of a key press, [msg.String()]
    and [msg.Type]. *)
Record KeyMsg : Type := mkKeyMsg {
  KString : string;
  KType : Z
}.

(** [tea.KeyEsc], the key type of the escape key. *)
Definition KeyEsc : Z := 27.

(** The messages [Update] tells apart; any other message is [otherMsg]. *)
Inductive Msg : Type :=
| WindowSizeMsg (Width Height : Z)
| keyMsg (k : KeyMsg)
| tickMsg
| scanStartMsg
| scanCompleteMsg
| deviceFoundMsg (d : DeviceInfo)
| connectionMsg (connected : bool) (err : option error)
| commandSentMsg (command : string) (err : option error)
| otherMsg.

(** The commands the model hands back to the framework: functions that
    are run later and may yield a message.  A handler returns a list of
    them: none for [nil], several for [tea.Batch]. *)
Inductive Cmd : Type :=
| CmdQuit
| CmdTick
| CmdCheckForDevices
| CmdEmit (msg : Msg)
| CmdPerformScan
| CmdConnect (d : DeviceInfo)
| CmdSendCommand (command : string)
| CmdTakePhoto.

(** The rest of [type Model struct], around the four fields of [Model]:
    the mode, whether [m.cancel()] was called, the buffer of
    [deviceChan], the window size, the version, the spinner, the button
    states, and the wall clock as [addLog] reads it ([clock n] is the
    [n]-th reading of [time.Now().Format("15:04:05")]). *)
Record App : Type := mkApp {
  model : Model;
  mode : AppMode;
  cancelled : bool;
  deviceChan : list DeviceInfo;
  width : Z;
  height : Z;
  version : string;
  spinnerIndex : Z;
  buttonStates : gmap string bool;
  clock : nat -> string;
  reads : nat
}.

Definition set_model (v : Model) (a : App) : App :=
  mkApp v (mode a) (cancelled a) (deviceChan a) (width a) (height a)
        (version a) (spinnerIndex a) (buttonStates a) (clock a) (reads a).
Definition set_mode (v : AppMode) (a : App) : App :=
  mkApp (model a) v (cancelled a) (deviceChan a) (width a) (height a)
        (version a) (spinnerIndex a) (buttonStates a) (clock a) (reads a).
Definition set_cancelled (v : bool) (a : App) : App :=
  mkApp (model a) (mode a) v (deviceChan a) (width a) (height a)
        (version a) (spinnerIndex a) (buttonStates a) (clock a) (reads a).
Definition set_deviceChan (v : list DeviceInfo) (a : App) : App :=
  mkApp (model a) (mode a) (cancelled a) v (width a) (height a)
        (version a) (spinnerIndex a) (buttonStates a) (clock a) (reads a).
Definition set_size (w h : Z) (a : App) : App :=
  mkApp (model a) (mode a) (cancelled a) (deviceChan a) w h
        (version a) (spinnerIndex a) (buttonStates a) (clock a) (reads a).
Definition set_spinnerIndex (v : Z) (a : App) : App :=
  mkApp (model a) (mode a) (cancelled a) (deviceChan a) (width a) (height a)
        (version a) v (buttonStates a) (clock a) (reads a).
Definition set_buttonStates (v : gmap string bool) (a : App) : App :=
  mkApp (model a) (mode a) (cancelled a) (deviceChan a) (width a) (height a)
        (version a) (spinnerIndex a) v (clock a) (reads a).
Definition set_reads (v : nat) (a : App) : App :=
  mkApp (model a) (mode a) (cancelled a) (deviceChan a) (width a) (height a)
        (version a) (spinnerIndex a) (buttonStates a) (clock a) v.

(** Assignments to the fields kept in [Model]. *)
Definition set_devices (v : list DeviceInfo) (m : Model) : Model :=
  mkModel v (selected m) (scanning m) (logs m).
Definition set_selected (v : Z) (m : Model) : Model :=
  mkModel (devices m) v (scanning m) (logs m).
Definition set_scanning (v : bool) (m : Model) : Model :=
  mkModel (devices m) (selected m) v (logs m).

(** [m.addLog(message)], reading the clock. *)
Definition log (message : string) (a : App) : App :=
  set_reads (S (reads a))
    (set_model (addLog (clock a (reads a)) message (model a)) a).

(** [m.addDevice(device)], reading the clock when it logs. *)
Definition found (device : DeviceInfo) (a : App) : App :=
  if alreadyExists (devices (model a)) device then a
  else set_reads (S (reads a))
         (set_model (addDevice (clock a (reads a)) (model a) device) a).

(** [m.buttonStates[key]], false for an absent key. *)
Definition button (a : App) (key : string) : bool :=
  default false (buttonStates a !! key).

(** The verbs [%t] and [%d] of [fmt.Sprintf]. *)
Definition fmt_bool (b : bool) : string := if b then "true" else "false".
Definition fmt_int (n : Z) : string := pretty n.

(** What a handler returns: the model, the client it called into, and
    the commands; [None] when it panics on an index out of range. *)
Definition Handled : Type := option (App * Sys * list Cmd).

(** [m.devices[i]] for a Go [int] index. *)
Definition deviceAt (a : App) (i : Z) : option DeviceInfo :=
  if decide (0 <= i)%Z then devices (model a) !! Z.to_nat i else None.

(** [len(m.devices)]. *)
Definition numDevices (a : App) : Z := Z.of_nat (length (devices (model a))).

(** [m.client.StopScan()] and [m.client.Disconnect()] from a handler;
    the error of [Disconnect] is dropped there. *)
Definition clientStopScan (s : Sys) : Sys := snd (StopScan s).
Definition clientDisconnect (radio : Radio) (s : Sys) : Sys :=
  snd (Disconnect radio s).

(** The end of the escape branches of [handleDeviceListKeys]: log, stop
    the scan, and emit [scanCompleteMsg]. *)
Definition stopScanning (message : string) (a : App) (s : Sys) : Handled :=
  Some (log message a, clientStopScan s, [CmdEmit scanCompleteMsg]).

(** The [switch key] of [handleDeviceListKeys].  Under their guards
    [m.selected--] and [m.selected++] stay within the range of [int]. *)
Definition deviceListSwitch (key : string) (a : App) (s : Sys) : Handled :=
  if decide (key = "q" \/ key = "ctrl+c") then
    Some (set_cancelled true a, s, [CmdQuit])
  else if decide (key = "tab") then
    if negb (scanning (model a)) then Some (a, s, [CmdEmit scanStartMsg])
    else Some (a, s, [])
  else if decide (key = "up" \/ key = "k") then
    if decide (selected (model a) > 0)%Z
    then Some (set_model (set_selected (selected (model a) - 1) (model a)) a,
               s, [])
    else Some (a, s, [])
  else if decide (key = "down" \/ key = "j") then
    if decide (selected (model a) < numDevices a - 1)%Z
    then Some (set_model (set_selected (selected (model a) + 1) (model a)) a,
               s, [])
    else Some (a, s, [])
  else if decide (key = "enter") then
    if decide (numDevices a > 0 /\ selected (model a) < numDevices a)%Z then
      match deviceAt a (selected (model a)) with
      | None => None
      | Some device =>
          let a := log ("Connecting to " +:+ DName device +:+ "...") a in
          let s := if scanning (model a) then clientStopScan s else s in
          Some (a, s, [CmdConnect device])
      end
    else Some (a, s, [])
  else if decide (key = "esc" \/ key = "escape") then
    if scanning (model a)
    then stopScanning "ESC pressed - stopping scan..." a s
    else Some (a, s, [])
  else Some (a, s, []).

(** [func (m *Model) handleDeviceListKeys(msg tea.KeyMsg)]. *)
Definition handleDeviceListKeys (msg : KeyMsg) (a : App) (s : Sys)
  : Handled :=
  let key := KString msg in
  let a :=
    log ("Key pressed: '" +:+ key +:+ "' Type: " +:+ fmt_int (KType msg)
         +:+ " (scanning: " +:+ fmt_bool (scanning (model a)) +:+ ")") a in
  if bool_decide (KType msg = KeyEsc) && scanning (model a)
  then stopScanning "ESC key detected - stopping scan..." a s
  else deviceListSwitch key a s.

(** A control key that presses a button: the button it lights and the
    command it sends. *)
Definition controlButton (key : string) : option (string * string) :=
  if decide (key = "f" \/ key = "F") then Some ("focus", "focus_down")
  else if decide (key = "s" \/ key = "S")
  then Some ("shutter", "shutter_full_down")
  else if decide (key = "z") then Some ("zoom_out", "zoom_out_down")
  else if decide (key = "Z") then Some ("zoom_in", "zoom_in_down")
  else if decide (key = "a" \/ key = "A")
  then Some ("autofocus", "autofocus_down")
  else if decide (key = "r" \/ key = "R") then Some ("record", "record_toggle")
  else if decide (key = "c" \/ key = "C") then Some ("custom", "c1_down")
  else None.

(** [m.buttonStates[name] = true]. *)
Definition press (name : string) (a : App) : App :=
  set_buttonStates (<[name := true]> (buttonStates a)) a.

(** [func (m *Model) handleControlKeys(msg tea.KeyMsg)]. *)
Definition handleControlKeys (radio : Radio) (msg : KeyMsg) (a : App)
  (s : Sys) : Handled :=
  let key := KString msg in
  if decide (key = "q" \/ key = "ctrl+c") then
    Some (set_cancelled true a, clientDisconnect radio s, [CmdQuit])
  else if decide (key = "esc" \/ key = "backspace") then
    let s := clientDisconnect radio s in
    let a := set_mode ModeDeviceList a in
    let a := set_model (set_devices [] (model a)) a in
    Some (log "Disconnected" a, s, [])
  else
    match controlButton key with
    | Some (name, command) => Some (press name a, s, [CmdSendCommand command])
    | None =>
        if decide (key = " ")
        then Some (log "Taking photo..." (press "shutter" a), s,
                   [CmdTakePhoto])
        else Some (a, s, [])
    end.

(** [func (m *Model) handleKeyPress(msg tea.KeyMsg)]. *)
Definition handleKeyPress (radio : Radio) (msg : KeyMsg) (a : App) (s : Sys)
  : Handled :=
  match mode a with
  | ModeDeviceList => handleDeviceListKeys msg a s
  | ModeControl => handleControlKeys radio msg a s
  end.

(** [func (m *Model) Update(msg tea.Msg) (tea.Model, tea.Cmd)]. *)
Definition Update (radio : Radio) (msg : Msg) (a : App) (s : Sys) : Handled :=
  match msg with
  | WindowSizeMsg w h => Some (set_size w h a, s, [])
  | keyMsg k => handleKeyPress radio k a s
  | tickMsg =>
      if scanning (model a)
      then Some (set_spinnerIndex
                   (Z.rem (wrapInt (spinnerIndex a + 1)) 4) a,
                 s, [CmdTick; CmdCheckForDevices])
      else Some (a, s, [CmdTick])
  | scanStartMsg =>
      Some (set_reads (S (reads a))
              (set_model (scanStart (clock a (reads a)) (model a)) a),
            s, [CmdPerformScan])
  | deviceFoundMsg d =>
      let a := found d a in
      if scanning (model a) then Some (a, s, [CmdCheckForDevices])
      else Some (a, s, [])
  | scanCompleteMsg =>
      let wasScanning := scanning (model a) in
      let a := set_model (set_scanning false (model a)) a in
      if wasScanning then
        if decide (numDevices a > 0)%Z
        then Some (log ("Scan stopped - found " +:+ fmt_int (numDevices a)
                        +:+ " device(s)") a, s, [])
        else Some (log "Scan stopped - no devices found" a, s, [])
      else Some (a, s, [])
  | connectionMsg connected err =>
      match err with
      | Some e => Some (log ("Connection failed: " +:+ Error_text e) a, s, [])
      | None =>
          if connected
          then Some (set_mode ModeControl
                       (log ("Connected to " +:+ fst (DeviceName s)) a),
                     s, [])
          else Some (set_mode ModeDeviceList (log "Disconnected" a), s, [])
      end
  | commandSentMsg command err =>
      let a := set_buttonStates (<[command := false]> (buttonStates a)) a in
      match err with
      | Some e => Some (log ("Command failed: " +:+ Error_text e) a, s, [])
      | None => Some (log ("Sent: " +:+ command) a, s, [])
      end
  | otherMsg => Some (a, s, [])
  end.

(** The first log line of [NewModel]. *)
Definition startMessage : string :=
  "Sony Camera Remote started. Press Tab to scan for devices.".

(** [func NewModel(version string)]: the model and the
    client it made, or the error of [NewClient]. *)
Definition NewModel (radio : Radio) (version : string) (clock : nat -> string)
  : option (App * Client) * option error :=
  match NewClient radio with
  | (Some client, _) =>
      (Some (log startMessage
               (mkApp (mkModel [] 0 false []) ModeDeviceList false []
                      80 24 version 0 ∅ clock 0),
             client), None)
  | (None, err) => (None, err)
  end.

(** [func (m *Model) Init() tea.Cmd]. *)
Definition Init : list Cmd := [CmdTick; CmdCheckForDevices].

(** The command [m.sendCommand(command)], when the framework runs it. *)
Definition sendCommand (radio : Radio) (command : string) : M Msg :=
  match Commands !! command with
  | None =>
      ret (commandSentMsg command
             (Some (errorString ("unknown command: " +:+ command))))
  | Some cmd =>
      err <- SendCommand radio cmd ;;
      ret (commandSentMsg (Name cmd) err)
  end.

(** The command [m.takePhoto()]. *)
Definition takePhoto (radio : Radio) : M Msg :=
  err <- TakePhoto radio ;;
  ret (commandSentMsg "Take Photo" err).

(** The command [m.connect(device)]. *)
Definition connect (radio : Radio) (d : DeviceInfo) : M Msg :=
  err <- Connect radio (DAddress d) ;;
  ret (connectionMsg (bool_decide (err = None)) err).

(** The command [m.performScan()]: a message only if the scan could not
    start. *)
Definition performScan : M (option Msg) :=
  err <- ScanForDevices ;;
  match err with
  | Some _ => ret (Some scanCompleteMsg)
  | None => ret None
  end.

(** The function of [m.checkForDevicesCmd()]: a receive on [deviceChan]
    that does not wait. *)
Definition checkForDevices (a : App) : option Msg * App :=
  match deviceChan a with
  | d :: rest => (Some (deviceFoundMsg d), set_deviceChan rest a)
  | [] => (None, a)
  end.

(** Running one command the model returned, for the commands that talk
    to the client; the others yield no message here. *)
Definition runClientCmd (radio : Radio) (cmd : Cmd) : M (option Msg) :=
  match cmd with
  | CmdSendCommand command => m <- sendCommand radio command ;; ret (Some m)
  | CmdTakePhoto => m <- takePhoto radio ;; ret (Some m)
  | CmdConnect d => m <- connect radio d ;; ret (Some m)
  | CmdPerformScan => performScan
  | CmdEmit m => ret (Some m)
  | CmdQuit | CmdTick | CmdCheckForDevices => ret None
  end.

(** The four things the model keeps true of itself: the selection index
    is not negative, the log has at most ten lines, the devices have
    pairwise distinct address strings, and the spinner index is one of
    0, 1, 2, 3. *)
Definition selectionOk (a : App) : Prop := (0 <= selected (model a))%Z.
Definition logOk (a : App) : Prop := (length (logs (model a)) <= 10)%nat.
Definition devicesOk (a : App) : Prop :=
  NoDup (addresses (devices (model a))).
Definition spinnerOk (a : App) : Prop := (0 <= spinnerIndex a < 4)%Z.

Definition wellFormed (a : App) : Prop :=
  selectionOk a /\ logOk a /\ devicesOk a /\ spinnerOk a.

(** [spinners[m.spinnerIndex%len(spinners)]] of [deviceListView]; [None]
    is the panic of an index out of range. *)
Definition spinnerFrame (a : App) : option string :=
  let i := Z.rem (spinnerIndex a) 4 in
  if decide (0 <= i)%Z then ["|"; "/"; "-"; "\"] !! Z.to_nat i else None.

(** The keys of [m.buttonStates] that [handleControlKeys] sets and the
    views read. *)
Definition buttonNames : list string :=
  ["focus"; "shutter"; "zoom_out"; "zoom_in"; "autofocus"; "record";
   "custom"].

(** The commands that the control keys start. *)
Definition startedByControlKey (cmd : Cmd) : Prop :=
  cmd = CmdTakePhoto
  \/ exists key name command,
       controlButton key = Some (name, command)
       /\ cmd = CmdSendCommand command.

(** A model as [NewModel] makes it, and one in control mode. *)
Definition sampleClock (n : nat) : string := "12:00:00".
Definition freshApp : App :=
  log startMessage
    (mkApp (mkModel [] 0 false []) ModeDeviceList false [] 80 24 "dev" 0 ∅
           sampleClock 0).
Definition controlApp : App := set_mode ModeControl freshApp.

(** * Properties *)

(** Unfolding of the state-passing operations. *)
Ltac run :=
  cbv [bind ret getClient getWorld modClient modWorld
       call_WriteWithoutResponse call_Disconnect call_Connect
       call_DiscoverServices call_DiscoverCharacteristics call_StopScan
       time_Sleep go_scanTask failConnect fst snd].

(** ** The command registry *)

Example lookup_focus_down :
  Commands !! "focus_down" = Some (mkSonyCommand "Focus Down" [x01; x07]).
Proof. vm_compute. reflexivity. Qed.

Example lookup_unknown : Commands !! "nope" = None.
Proof. vm_compute. reflexivity. Qed.

(** C6: the registry maps each of the sixteen listed keys to exactly the
    listed byte-code, it has no other key, and the service and
    characteristic UUID constants are the two fixed UUID texts. *)
Theorem registry_matches_protocol_table :
  Forall (fun kv => bytecode_of (fst kv) = Some (snd kv)) listed_bytecodes
  /\ dom Commands = list_to_set (map fst listed_bytecodes)
  /\ SonyServiceUUID = "8000ff00-ff00-ffff-ffff-ffffffffffff"
  /\ CommandCharUUID = "0000ff01-0000-1000-8000-00805f9b34fb".
Proof.
  split; [| split; [| split; reflexivity]].
  - unfold listed_bytecodes.
    repeat (apply Forall_cons; split; [vm_compute; reflexivity |]).
    apply Forall_nil. exact I.
  - unfold Commands. rewrite dom_list_to_map_L. reflexivity.
Qed.

(** ** The take-photo sequence *)

(** C7: [TakePhotoSequence()] is the four registry entries for focus_down,
    shutter_full_down, shutter_full_up, focus_up, in that order; it takes
    no input and reads only the registry, so every call returns this same
    sequence. *)
Theorem TakePhotoSequence_fixed :
  TakePhotoSequence
  = [ mkSonyCommand "Focus Down" [x01; x07];
      mkSonyCommand "Shutter Full Down" [x01; x09];
      mkSonyCommand "Shutter Full Up" [x01; x08];
      mkSonyCommand "Focus Up" [x01; x06] ]
  /\ length TakePhotoSequence = 4%nat
  /\ Some <$> TakePhotoSequence
     = (fun key => Commands !! key)
       <$> ["focus_down"; "shutter_full_down"; "shutter_full_up"; "focus_up"].
Proof.
  repeat split; vm_compute; reflexivity.
Qed.

(** ** The parsed UUIDs *)

Example ServiceUUID_value :
  ParseUUID SonyServiceUUID
  = ([0xffffffff; 0xffffffff; 0xff00ffff; 0x8000ff00]%Z, None).
Proof. vm_compute. reflexivity. Qed.

Example ParseUUID_short : snd (ParseUUID "ff01") = Some errInvalidUUID.
Proof. vm_compute. reflexivity. Qed.

(** C10: [ServiceUUID()] and [CharacteristicUUID()] drop the error of
    [ParseUUID]; on the two constants the parse returns no error, so both
    functions return the parsed 128-bit value, which is not the zero
    UUID. *)
Theorem parsed_UUIDs_never_fail :
  ParseUUID SonyServiceUUID
  = ([0xffffffff; 0xffffffff; 0xff00ffff; 0x8000ff00]%Z, None)
  /\ ParseUUID CommandCharUUID
     = ([0x5f9b34fb; 0x80000080; 0x00001000; 0x0000ff01]%Z, None)
  /\ ServiceUUID = [0xffffffff; 0xffffffff; 0xff00ffff; 0x8000ff00]%Z
  /\ CharacteristicUUID = [0x5f9b34fb; 0x80000080; 0x00001000; 0x0000ff01]%Z
  /\ ServiceUUID <> zeroUUID
  /\ CharacteristicUUID <> zeroUUID.
Proof.
  repeat split; try (vm_compute; reflexivity); vm_compute; discriminate.
Qed.

(** ** Sending commands *)

Example connectedSys_state : state (fst connectedSys) = Connected.
Proof. vm_compute. reflexivity. Qed.

(** [SendCommand] outside of [Connected]. *)
Lemma SendCommand_unconnected radio cmd c w :
  state c <> Connected ->
  SendCommand radio cmd (c, w) = (Some errNotConnected, (c, w)).
Proof.
  intros Hs. unfold SendCommand. run.
  destruct (decide (state c <> Connected)) as [_ | Hn]; [reflexivity |].
  exfalso. apply Hn. exact Hs.
Qed.

(** [SendCommand] in [Connected]: one write call is made and logged; the
    client changes only when the write fails, and then only in
    [lastError]. *)
Lemma SendCommand_connected radio cmd c w :
  state c = Connected ->
  SendCommand radio cmd (c, w)
  = let r := char_WriteWithoutResponse radio w (char c) (Code cmd) in
    let w' := mkWorld (writes w ++ [mkWriteCall (char c) (Code cmd) r])
                      (slept w) (links w) (stopScanCalls w) (scanTasks w) in
    match r with
    | Some e => (Some (errSend cmd e),
                 (set_lastError (Some (errSend cmd e)) c, w'))
    | None => (None, (c, w'))
    end.
Proof.
  intros Hs. unfold SendCommand. run.
  destruct (decide (state c <> Connected)) as [Hn | _]; [congruence |].
  destruct (char_WriteWithoutResponse radio w (char c) (Code cmd));
    reflexivity.
Qed.

(** C3: outside of [Connected], [SendCommand] returns the not-connected
    error, makes no write call, and leaves the client (its state and its
    handles included) and the outside as they were. *)
Theorem SendCommand_requires_Connected radio cmd c w :
  state c <> Connected ->
  SendCommand radio cmd (c, w) = (Some errNotConnected, (c, w))
  /\ writes (snd (snd (SendCommand radio cmd (c, w)))) = writes w
  /\ state (fst (snd (SendCommand radio cmd (c, w)))) = state c
  /\ char (fst (snd (SendCommand radio cmd (c, w)))) = char c.
Proof.
  intros Hs. rewrite (SendCommand_unconnected radio cmd c w Hs).
  repeat split.
Qed.

Lemma SendCommand_requires_Connected_witness :
  state (set_state Scanning freshClient) <> Connected
  /\ SendCommand radioOk focus_down (set_state Scanning freshClient, world0)
     = (Some errNotConnected, (set_state Scanning freshClient, world0)).
Proof.
  split; [discriminate |].
  apply (SendCommand_requires_Connected radioOk focus_down
           (set_state Scanning freshClient) world0).
  discriminate.
Defined.

(** [SendCommand] never assigns [c.state], whatever the write returned. *)
Lemma SendCommand_keeps_state radio cmd c w :
  state (fst (snd (SendCommand radio cmd (c, w)))) = state c.
Proof.
  destruct (decide (state c = Connected)) as [Hs | Hs].
  - rewrite (SendCommand_connected radio cmd c w Hs). cbv zeta.
    destruct (char_WriteWithoutResponse radio w (char c) (Code cmd));
      reflexivity.
  - rewrite (SendCommand_unconnected radio cmd c w Hs). reflexivity.
Qed.

(** C1, evaluated on a connected client whose write fails: the failure is
    returned to the caller and recorded, but the state is still
    [Connected] after the call; it has not become [Error]. *)
Theorem SendCommand_write_failure_stays_Connected :
  state (fst connectedSys) = Connected
  /\ fst (SendCommand radioWriteFails focus_down connectedSys)
     = Some (errSend focus_down (errorString "write rejected"))
  /\ state (fst (snd (SendCommand radioWriteFails focus_down connectedSys)))
     = Connected
  /\ state (fst (snd (SendCommand radioWriteFails focus_down connectedSys)))
     <> Error.
Proof.
  repeat split; try (vm_compute; reflexivity).
  vm_compute. discriminate.
Qed.

(** C4, evaluated on a fresh client: [SendCommand] returns the
    not-connected error, and [LastError()] read afterwards is still nil,
    not the error returned; the error of a failed write, on the other
    hand, is recorded. *)
Theorem SendCommand_unconnected_error_not_recorded :
  fst (SendCommand radioOk focus_down (freshClient, world0))
  = Some errNotConnected
  /\ fst (LastError (snd (SendCommand radioOk focus_down (freshClient, world0))))
     = None
  /\ fst (LastError (snd (SendCommand radioWriteFails focus_down connectedSys)))
     = fst (SendCommand radioWriteFails focus_down connectedSys).
Proof.
  repeat split; vm_compute; reflexivity.
Qed.

(** ** Command sequences *)

Lemma SendCommandSequence_outcome radio delay commands :
  forall c w,
    sequenceOutcome radio commands delay c w
      (SendCommandSequence radio commands delay (c, w)).
Proof.
  induction commands as [| cmd rest IH]; intros c w.
  - simpl. unfold ret, okCalls. simpl. split; [reflexivity |].
    rewrite app_nil_r. reflexivity.
  - cbn [SendCommandSequence]. unfold bind at 1.
    destruct (decide (state c = Connected)) as [Hs | Hs].
    + pose proof (SendCommand_connected radio cmd c w Hs) as Hsend.
      cbv zeta in Hsend.
      destruct (char_WriteWithoutResponse radio w (char c) (Code cmd))
        as [cause |] eqn:Hw.
      * rewrite Hsend. unfold ret. cbn [sequenceOutcome].
        exists [], cmd, rest, w, [mkWriteCall (char c) (Code cmd) (Some cause)].
        repeat split.
        -- rewrite Hsend. reflexivity.
        -- right. exists cause. reflexivity.
      * rewrite Hsend.
        set (w1 := mkWorld (writes w ++ [mkWriteCall (char c) (Code cmd) None])
                     (slept w) (links w) (stopScanCalls w) (scanTasks w)).
        unfold bind at 1.
        destruct ((if decide (delay > 0)%Z then time_Sleep delay else ret tt)
                    (c, w1)) as [u [c2 w2]] eqn:Hsl.
        assert (Hc2 : c2 = c /\ writes w2 = writes w1).
        { destruct (decide (delay > 0)%Z); cbv in Hsl;
            inversion Hsl; subst; split; reflexivity. }
        destruct Hc2 as [-> Hw2].
        specialize (IH c w2).
        destruct (SendCommandSequence radio rest delay (c, w2))
          as [[e |] [c' w']] eqn:Hrest; cbn [sequenceOutcome] in *.
        -- destruct IH as (sent & cmd' & rest' & w3 & attempt & Hcmds & Hpre
                           & Hfail & Hwr & Hatt).
           exists (cmd :: sent), cmd', rest', w3, attempt.
           split; [rewrite Hcmds; reflexivity |].
           split.
           { cbn [SendCommandSequence]. unfold bind at 1. rewrite Hsend.
             fold w1. unfold bind at 1. rewrite Hsl. exact Hpre. }
           split; [exact Hfail |].
           split; [| exact Hatt].
           rewrite Hwr, Hw2. subst w1. cbn [writes okCalls map].
           rewrite <- !app_assoc. reflexivity.
        -- destruct IH as [-> Hwr]. split; [reflexivity |].
           rewrite Hwr, Hw2. subst w1. cbn [writes okCalls map].
           rewrite <- !app_assoc. reflexivity.
    + rewrite (SendCommand_unconnected radio cmd c w Hs). unfold ret.
      cbn [sequenceOutcome].
      exists [], cmd, rest, w, [].
      repeat split.
      * apply SendCommand_unconnected. exact Hs.
      * cbn. rewrite app_nil_r. reflexivity.
      * left. reflexivity.
Qed.

(** C5: for every command list, delay, client and radio behaviour,
    [SendCommandSequence] hands the commands to [SendCommand] one at a
    time in the declared order: it returns nil after writing every
    byte-code in order, or it returns the error of the first failing
    [SendCommand], having written the byte-codes of the commands before it
    (and at most attempted the failing one) and nothing of those after
    it.  In both cases the byte-codes written are a prefix of the
    declared ones. *)
Theorem SendCommandSequence_in_order_until_first_error
  radio commands delay c w :
  sequenceOutcome radio commands delay c w
    (SendCommandSequence radio commands delay (c, w))
  /\ exists k : nat,
       (k <= length commands)%nat
       /\ map wdata
            (newWrites w (snd (SendCommandSequence radio commands delay (c, w))))
          = map Code (take k commands).
Proof.
  pose proof (SendCommandSequence_outcome radio delay commands c w) as H.
  split; [exact H |].
  unfold newWrites.
  destruct (SendCommandSequence radio commands delay (c, w))
    as [[e |] [c' w']]; cbn [sequenceOutcome snd] in *.
  - destruct H as (sent & cmd & rest & w1 & attempt & -> & _ & _ & -> & Hatt).
    rewrite drop_app_length.
    destruct Hatt as [-> | [cause ->]].
    + exists (length sent). split.
      * rewrite length_app. lia.
      * rewrite app_nil_r, take_app_length. unfold okCalls.
        rewrite map_map. reflexivity.
    + exists (S (length sent)). split.
      * rewrite length_app. simpl. lia.
      * replace (sent ++ cmd :: rest) with ((sent ++ [cmd]) ++ rest)
          by (rewrite <- app_assoc; reflexivity).
        replace (S (length sent)) with (length (sent ++ [cmd]))
          by (rewrite length_app; simpl; lia).
        rewrite take_app_length, !map_app. unfold okCalls.
        rewrite map_map. reflexivity.
  - destruct H as [_ ->]. rewrite drop_app_length.
    exists (length commands). split; [lia |].
    rewrite firstn_all. unfold okCalls. rewrite map_map. reflexivity.
Qed.

Example sequence_two_writes :
  map wdata (writes (snd (snd
    (SendCommandSequence radioOk [focus_down; shutter_full_down] 0
       connectedSys))))
  = [[x01; x07]; [x01; x09]].
Proof. vm_compute. reflexivity. Qed.

Example sequence_stops_at_second :
  SendCommandSequence radioSecondWriteFails TakePhotoSequence 0 connectedSys
  = (Some (errSend shutter_full_down (errorString "write rejected")),
     (set_lastError
        (Some (errSend shutter_full_down (errorString "write rejected")))
        (fst connectedSys),
      mkWorld [mkWriteCall 1%N [x01; x07] None;
               mkWriteCall 1%N [x01; x09]
                 (Some (errorString "write rejected"))]
              0 [1%N] 0 0)).
Proof. vm_compute. reflexivity. Qed.

(** ** Transitions of the operations *)

Example Connect_without_service :
  Connect radioNoService cameraAddress (freshClient, world0)
  = (Some (errorString "Sony camera service not found"),
     (mkClient 1%N 0%N 0%N Error ""
        (Some (errorString "Sony camera service not found")) [],
      mkWorld [] 0 [1%N] 0 0)).
Proof. vm_compute. reflexivity. Qed.

Example Disconnect_refused :
  fst (Disconnect radioDisconnectFails connectedSys)
  = Some (errorString "link busy")
  /\ state (fst (snd (Disconnect radioDisconnectFails connectedSys))) = Error
  /\ lastError (fst (snd (Disconnect radioDisconnectFails connectedSys)))
     = Some (errorString "link busy").
Proof. repeat split; vm_compute; reflexivity. Qed.

Example StopScan_twice :
  state (fst (snd (StopScan (snd (StopScan
    (snd (ScanForDevices (freshClient, world0)))))))) = Disconnected.
Proof. vm_compute. reflexivity. Qed.

Lemma ScanForDevices_result s :
  fst (ScanForDevices s) = None
  /\ state (fst (snd (ScanForDevices s))) = Scanning.
Proof. destruct s as [c w]. split; reflexivity. Qed.

Lemma StopScan_state s :
  state (fst (snd (StopScan s)))
  = if decide (state (fst s) = Scanning) then Disconnected else state (fst s).
Proof.
  destruct s as [c w]. unfold StopScan. run.
  destruct (decide (length (stopScan c) < 1)%nat); cbn;
    destruct (decide (state c = Scanning)); reflexivity.
Qed.

Lemma Connect_result radio address s :
  state (fst (snd (Connect radio address s)))
  = if failed (fst (Connect radio address s)) then Error else Connected.
Proof.
  destruct s as [c w]. unfold Connect. run. cbn.
  destruct (adapter_Connect radio w address) as [d [e |]]; cbn;
    [reflexivity |].
  destruct (device_DiscoverServices radio _ d [ServiceUUID])
    as [[| s0 ss] [e |]]; cbn; try reflexivity.
  destruct (service_DiscoverCharacteristics radio _ s0 [CharacteristicUUID])
    as [[| c0 cs] [e |]]; cbn; reflexivity.
Qed.

Lemma Disconnect_result radio s :
  state (fst (snd (Disconnect radio s)))
  = (if failed (fst (Disconnect radio s)) then Error else Disconnected)
  /\ (failed (fst (Disconnect radio s)) = true -> state (fst s) = Connected).
Proof.
  destruct s as [c w]. unfold Disconnect. run. cbn.
  destruct (decide (state c = Connected)) as [Hs | Hs]; cbn.
  - destruct (device_Disconnect radio w (device c)); cbn; split; auto.
  - split; [reflexivity | discriminate].
Qed.

(** C2 as stated fails: a scan started on a connected client moves it from
    [Connected] to [Scanning], which no enumerated transition does. *)
Lemma scan_from_Connected_not_enumerated :
  state (fst connectedSys) = Connected
  /\ stateAfter radioOk OpScanForDevices connectedSys = Scanning
  /\ enumerated OpScanForDevices Connected Scanning = false
  /\ ~ onlyEnumeratedTransitions.
Proof.
  split; [vm_compute; reflexivity |].
  split; [vm_compute; reflexivity |].
  split; [reflexivity |].
  intros H. specialize (H radioOk OpScanForDevices connectedSys).
  vm_compute in H. discriminate.
Qed.

(** C2, amended: every public operation ends in the state [transition]
    gives, from every start state, the operations not being guarded on
    it (scan: [Scanning]; stop: [Disconnected] from [Scanning], else
    unchanged; connect: [Connected], or [Error] when it fails;
    disconnect: [Disconnected], or [Error] when it fails, which happens
    only from [Connected]; a command that returns nil or is refused as
    not connected: unchanged; scan and stop return no error).  Of a
    command whose write failed only the failure clause of the claim is
    stated: [Error] or the start state.  From the start states for which
    a transition of the operation is enumerated, no state change outside
    the enumerated ones happens; a call that returns an error leaves the
    client in [Error] or in the state it started from.  The scan task
    that [ScanForDevices] starts changes the state in one place only:
    when [adapter.Scan] returns an error it sets [Error], whatever the
    state is by then; its [select]s and its callback keep the state. *)
Theorem operations_follow_transition radio op s pick ctxDone result err :
  match transition op (state (fst s)) (failed (fst (perform radio op s))) with
  | Some s' => stateAfter radio op s = s'
  | None =>
      stateAfter radio op s = Error \/ stateAfter radio op s = state (fst s)
  end
  /\ implb (enumeratedStart op (state (fst s)))
           (enumerated op (state (fst s)) (stateAfter radio op s)) = true
  /\ match fst (perform radio op s) with
     | Some _ =>
         (stateAfter radio op s = Error
          \/ stateAfter radio op s = state (fst s))
         /\ match op with
            | OpScanForDevices | OpStopScan => False
            | OpDisconnect => state (fst s) = Connected
            | OpConnect _ | OpSendCommand _ => True
            end
     | None => True
     end
  /\ state (fst (snd (taskSelect pick ctxDone s))) = state (fst s)
  /\ state (fst (snd (scanCallback pick ctxDone result s))) = state (fst s)
  /\ state (fst (snd (taskScanReturned err s)))
     = (if failed err then Error else state (fst s)).
Proof.
  assert (Hsel : forall p d,
            state (fst (snd (selectCancel p d s))) = state (fst s)
            /\ snd (snd (selectCancel p d s)) = snd s).
  { intros p d. destruct s as [c w]. unfold selectCancel. run.
    destruct (stopScan c), d, p; split; reflexivity. }
  assert (Htask :
    state (fst (snd (taskSelect pick ctxDone s))) = state (fst s)
    /\ state (fst (snd (scanCallback pick ctxDone result s))) = state (fst s)
    /\ state (fst (snd (taskScanReturned err s)))
       = (if failed err then Error else state (fst s))).
  { destruct (Hsel pick ctxDone) as [Hst _].
    split; [| split].
    - unfold taskSelect, bind.
      destruct (selectCancel pick ctxDone s) as [[| |] s1]; exact Hst.
    - unfold scanCallback, bind.
      destruct (selectCancel pick ctxDone s) as [[| |] s1];
        cbn [fst snd] in *; try exact Hst.
      destruct (decide (LocalName result = "")); [exact Hst |].
      destruct (containsSonyIdentifier (LocalName result)); exact Hst.
    - destruct s as [c w]. destruct err; reflexivity. }
  assert (Hops :
    (match op with
     | OpScanForDevices => stateAfter radio op s = Scanning
     | OpStopScan =>
         stateAfter radio op s
         = if decide (state (fst s) = Scanning) then Disconnected
           else state (fst s)
     | OpConnect _ =>
         stateAfter radio op s
         = if failed (fst (perform radio op s)) then Error else Connected
     | OpDisconnect =>
         stateAfter radio op s
         = if failed (fst (perform radio op s)) then Error else Disconnected
     | OpSendCommand _ => stateAfter radio op s = state (fst s)
     end)
    /\ (failed (fst (perform radio op s)) = true ->
        match op with
        | OpScanForDevices | OpStopScan => False
        | OpDisconnect => state (fst s) = Connected
        | OpConnect _ | OpSendCommand _ => True
        end)).
  { unfold stateAfter. destruct op as [| | address | | cmd]; cbn [perform].
    - destruct (ScanForDevices_result s) as [Hr Hs].
      split; [exact Hs | rewrite Hr; discriminate].
    - rewrite <- StopScan_state. unfold bind, ret.
      destruct (StopScan s) as [u s']. split; [reflexivity | discriminate].
    - split; [apply Connect_result | trivial].
    - apply Disconnect_result.
    - split; [| trivial].
      destruct s as [c w]. apply SendCommand_keeps_state. }
  destruct Hops as [Hst Hfail].
  split; [| split; [| split; [| exact Htask]]].
  - destruct op; cbn [transition]; try exact Hst.
    destruct (failed (fst (perform radio (OpSendCommand cmd) s))
              && bool_decide (state (fst s) = Connected));
      [right; exact Hst | exact Hst].
  - clear Hsel Htask.
    destruct op; rewrite Hst; clear Hst.
    1-3, 5: clear Hfail; destruct (state (fst s)); try reflexivity;
      destruct (failed _); reflexivity.
    destruct (failed _);
      [rewrite (Hfail eq_refl) | destruct (state (fst s))]; reflexivity.
  - destruct (fst (perform radio op s)) as [e |]; cbn [failed] in *;
      [| exact I].
    specialize (Hfail eq_refl).
    destruct op; try contradiction.
    + split; [left; exact Hst | exact I].
    + split; [left; exact Hst | exact Hfail].
    + split; [right; exact Hst | exact I].
Qed.

(** ** The name filter *)

Example filter_ILCE : containsSonyIdentifier "ILCE-7M4" = true.
Proof. vm_compute. reflexivity. Qed.

Example filter_lowercase : containsSonyIdentifier "ilce-7m4 sony" = false.
Proof. vm_compute. reflexivity. Qed.

Lemma len_append (a b : string) : len (a +:+ b) = (len a + len b)%nat.
Proof.
  unfold len. induction a as [| ch a IH]; simpl; [reflexivity |].
  rewrite IH. reflexivity.
Qed.

Lemma substring_whole (s : string) : substring 0 (len s) s = s.
Proof.
  unfold len. induction s as [| ch s IH]; simpl; [reflexivity |].
  rewrite IH. reflexivity.
Qed.

Lemma substring_prefix (s post : string) :
  substring 0 (len s) (s +:+ post) = s.
Proof.
  unfold len. induction s as [| ch s IH]; simpl.
  - destruct post; reflexivity.
  - rewrite IH. reflexivity.
Qed.

Lemma substring_inside (pre s post : string) :
  substring (len pre) (len s) (pre +:+ s +:+ post) = s.
Proof.
  induction pre as [| ch pre IH].
  - exact (substring_prefix s post).
  - exact IH.
Qed.

Lemma append_nil_l (s : string) : "" +:+ s = s.
Proof. reflexivity. Qed.

Lemma append_cons (ch : ascii) (a b : string) :
  String ch a +:+ b = String ch (a +:+ b).
Proof. reflexivity. Qed.

Lemma substring_none (s : string) : substring 0 0 s = "".
Proof. destruct s; reflexivity. Qed.

(** A string is what precedes a slice, the slice, and what follows it. *)
Lemma substring_decompose (name : string) :
  forall j l : nat,
    (j + l <= len name)%nat ->
    name = substring 0 j name +:+ substring j l name
           +:+ substring (j + l) (len name - (j + l)) name.
Proof.
  unfold len. induction name as [| ch name IH]; intros j l Hle.
  - simpl in Hle. assert (j = 0%nat) as -> by lia.
    assert (l = 0%nat) as -> by lia. reflexivity.
  - destruct j as [| j].
    + destruct l as [| l].
      * rewrite !substring_none, !append_nil_l.
        exact (eq_sym (substring_whole (String ch name))).
      * simpl in Hle. specialize (IH 0%nat l ltac:(simpl; lia)).
        rewrite substring_none, append_nil_l in IH.
        rewrite substring_none, append_nil_l.
        simpl. rewrite append_cons. f_equal. exact IH.
    + simpl in Hle. simpl. rewrite append_cons. f_equal.
      apply IH. lia.
Qed.

Lemma innerLoop_true (name identifier : string) :
  forall n i : nat,
    innerLoop name identifier i n = true
    <-> exists j : nat,
          (i <= j < i + n)%nat
          /\ substring j (len identifier) name = identifier.
Proof.
  induction n as [| n IH]; intros i; cbn [innerLoop].
  - split; [discriminate | intros (j & Hj & _); lia].
  - unfold slice.
    replace (i + len identifier - i)%nat with (len identifier) by lia.
    destruct (decide (substring i (len identifier) name = identifier))
      as [Heq | Hne].
    + split; [intros _ | reflexivity].
      exists i. split; [lia | exact Heq].
    + rewrite IH. split; intros (j & Hj & Hsub).
      * exists j. split; [lia | exact Hsub].
      * exists j. split; [| exact Hsub].
        destruct (decide (j = i)) as [-> | Hji]; [contradiction | lia].
Qed.

(** The two loops for one identifier decide containment. *)
Lemma matchIdentifier_contains (name identifier : string) :
  matchIdentifier name identifier = true <-> contains name identifier.
Proof.
  unfold matchIdentifier, contains.
  destruct (decide (len identifier <= len name)%nat) as [Hle | Hgt].
  - rewrite innerLoop_true. split.
    + intros (j & Hj & Hsub).
      exists (substring 0 j name),
             (substring (j + len identifier)
                        (len name - (j + len identifier)) name).
      pose proof (substring_decompose name j (len identifier)) as Hd.
      rewrite Hsub in Hd. apply Hd. lia.
    + intros (pre & post & ->).
      exists (len pre). split.
      * rewrite !len_append. lia.
      * apply substring_inside.
  - split; [discriminate |].
    intros (pre & post & ->). exfalso. apply Hgt.
    rewrite !len_append. lia.
Qed.

Lemma outerLoop_contains (name : string) (identifiers : list string) :
  outerLoop name identifiers = true
  <-> exists identifier,
        identifier ∈ identifiers /\ contains name identifier.
Proof.
  induction identifiers as [| id rest IH]; cbn [outerLoop].
  - split; [discriminate |]. intros (x & Hx & _). inversion Hx.
  - destruct (matchIdentifier name id) eqn:Hm.
    + split; [intros _ | reflexivity].
      exists id. split; [left |]. apply matchIdentifier_contains. exact Hm.
    + rewrite IH. split; intros (x & Hx & Hc).
      * exists x. split; [right; exact Hx | exact Hc].
      * exists x. split; [| exact Hc].
        inversion Hx; subst; [| assumption].
        apply matchIdentifier_contains in Hc. congruence.
Qed.

(** C8: the filter is case-sensitive substring containment of one of its
    fixed identifiers: a name containing "ILCE", "DSC", "FX", "Alpha" or
    the alpha symbol passes; the empty name, a name containing none of
    the filter's identifiers (a headphone's name, say) and a name with
    the identifiers in another case do not. *)
Theorem containsSonyIdentifier_is_substring_match :
  (forall name,
     containsSonyIdentifier name = true
     <-> exists identifier,
           identifier ∈ sonyIdentifiers /\ contains name identifier)
  /\ (forall name identifier,
        identifier ∈ ["ILCE"; "DSC"; "FX"; "Alpha"; alphaSymbol] ->
        contains name identifier ->
        containsSonyIdentifier name = true)
  /\ (forall name,
        (forall identifier,
           identifier ∈ sonyIdentifiers -> ~ contains name identifier) ->
        containsSonyIdentifier name = false)
  /\ containsSonyIdentifier "" = false
  /\ containsSonyIdentifier "WH-1000XM4" = false
  /\ containsSonyIdentifier "ilce dsc fx alpha sony" = false.
Proof.
  split; [intros name; apply outerLoop_contains |].
  split.
  { intros name identifier Hin Hc. apply outerLoop_contains.
    exists identifier. split; [| exact Hc].
    apply list_elem_of_In. apply list_elem_of_In in Hin.
    unfold sonyIdentifiers. simpl in Hin |- *. tauto. }
  split.
  { intros name Hnone.
    destruct (containsSonyIdentifier name) eqn:Hf; [| reflexivity].
    apply outerLoop_contains in Hf. destruct Hf as (id & Hin & Hc).
    exfalso. exact (Hnone id Hin Hc). }
  repeat split; vm_compute; reflexivity.
Qed.

(** ** The device list *)

Lemma alreadyExists_true (ds : list DeviceInfo) (device : DeviceInfo) :
  alreadyExists ds device = true <-> AddressStr device ∈ addresses ds.
Proof.
  unfold addresses. induction ds as [| d rest IH]; cbn [alreadyExists map].
  - split; [discriminate | intros H; inversion H].
  - destruct (decide (AddressStr d = AddressStr device)) as [Heq | Hne].
    + split; [intros _ | reflexivity]. rewrite Heq. left.
    + rewrite IH. split; intros H.
      * right. exact H.
      * inversion H; subst; [congruence | assumption].
Qed.

Lemma addLog_devices ts msg m : devices (addLog ts msg m) = devices m.
Proof. reflexivity. Qed.

(** [addDevice] appends the record, unless its address string is already
    in the list; name and signal strength play no part. *)
Lemma addDevice_devices ts m device :
  devices (addDevice ts m device)
  = if bool_decide (AddressStr device ∈ addresses (devices m))
    then devices m else devices m ++ [device].
Proof.
  unfold addDevice.
  destruct (alreadyExists (devices m) device) eqn:Hex.
  - apply alreadyExists_true in Hex.
    rewrite bool_decide_eq_true_2 by exact Hex. reflexivity.
  - rewrite bool_decide_eq_false_2; [reflexivity |].
    intros Hin. apply alreadyExists_true in Hin. congruence.
Qed.

Lemma addDevice_NoDup ts m device :
  NoDup (addresses (devices m)) ->
  NoDup (addresses (devices (addDevice ts m device))).
Proof.
  intros Hnd. rewrite addDevice_devices.
  destruct (bool_decide (AddressStr device ∈ addresses (devices m))) eqn:Hb;
    [exact Hnd |].
  apply bool_decide_eq_false in Hb.
  unfold addresses in *. rewrite map_app. apply NoDup_app.
  split; [exact Hnd |]. split.
  - intros a Ha Hin. apply list_elem_of_singleton in Hin. subst a.
    exact (Hb Ha).
  - apply NoDup_singleton.
Qed.

Lemma addDevice_seen ts m device a :
  a ∈ addresses (devices (addDevice ts m device)) ->
  a ∈ addresses (devices m) \/ a = AddressStr device.
Proof.
  rewrite addDevice_devices.
  destruct (bool_decide (AddressStr device ∈ addresses (devices m)));
    [left; assumption |].
  unfold addresses. rewrite map_app, elem_of_app. intros [H | H].
  - left. exact H.
  - right. apply list_elem_of_singleton in H. exact H.
Qed.

Lemma find_app_first {A} (p : A -> bool) (l k : list A) :
  find p (l ++ k)
  = match find p l with Some x => Some x | None => find p k end.
Proof.
  induction l as [| x l IH]; simpl; [reflexivity |].
  destruct (p x); [reflexivity | exact IH].
Qed.

Lemma find_hasAddress_None a ds :
  a ∉ addresses ds -> find (hasAddress a) ds = None.
Proof.
  unfold addresses. induction ds as [| d ds IH]; simpl; [reflexivity |].
  intros Hn. unfold hasAddress at 1.
  rewrite bool_decide_eq_false_2.
  - apply IH. intros H. apply Hn. right. exact H.
  - intros <-. apply Hn. left.
Qed.

Lemma find_hasAddress_Some a ds :
  a ∈ addresses ds -> exists d, find (hasAddress a) ds = Some d.
Proof.
  unfold addresses. induction ds as [| d ds IH]; simpl; intros Hin.
  - inversion Hin.
  - unfold hasAddress at 1.
    destruct (bool_decide (AddressStr d = a)) eqn:Hb; [eauto |].
    apply bool_decide_eq_false in Hb. apply IH.
    inversion Hin; subst; [congruence | assumption].
Qed.

(** For each address string, the record that [addDevice] keeps is the
    first one with it. *)
Lemma addDevice_first ts m device a :
  find (hasAddress a) (devices (addDevice ts m device))
  = find (hasAddress a) (devices m ++ [device]).
Proof.
  rewrite addDevice_devices.
  destruct (bool_decide (AddressStr device ∈ addresses (devices m))) eqn:Hb;
    [| reflexivity].
  apply bool_decide_eq_true in Hb. rewrite find_app_first.
  destruct (find (hasAddress a) (devices m)) as [d |] eqn:Hf; [reflexivity |].
  simpl. unfold hasAddress at 1.
  destruct (bool_decide (AddressStr device = a)) eqn:Ha; [| reflexivity].
  apply bool_decide_eq_true in Ha. subst a.
  destruct (find_hasAddress_Some _ _ Hb) as [d Hd]. congruence.
Qed.

(** The three facts, for a whole run of [addDevice] calls. *)
Lemma addDevices_invariant found :
  forall m,
    (NoDup (addresses (devices m)) ->
     NoDup (addresses (devices (addDevices m found))))
    /\ (forall a, a ∈ addresses (devices (addDevices m found)) ->
                  a ∈ addresses (devices m ++ map snd found))
    /\ (forall a, find (hasAddress a) (devices (addDevices m found))
                  = find (hasAddress a) (devices m ++ map snd found)).
Proof.
  unfold addDevices.
  induction found as [| [ts device] rest IH]; intros m; cbn [fold_left map].
  - rewrite app_nil_r. auto.
  - destruct (IH (addDevice ts m device)) as (IH1 & IH2 & IH3).
    cbn [fst snd] in *. split; [| split].
    + intros Hnd. apply IH1. apply addDevice_NoDup. exact Hnd.
    + intros a Ha. specialize (IH2 a Ha).
      unfold addresses in *. rewrite map_app, elem_of_app in IH2.
      rewrite map_app, elem_of_app. cbn [map].
      destruct IH2 as [H | H].
      * destruct (addDevice_seen ts m device a H) as [H' | ->].
        -- left. exact H'.
        -- right. left.
      * right. right. exact H.
    + intros a. rewrite IH3, find_app_first, addDevice_first.
      rewrite <- find_app_first, <- app_assoc. reflexivity.
Qed.

(** C9: [addDevice] leaves the list as it is when the record's address
    string is already there, whatever its name and signal strength, and
    appends the record otherwise; so over a scan session, which starts
    from the empty list, the address strings of the list are pairwise
    distinct, the list is no longer than the number of distinct address
    strings seen, and for each address string the record kept is the
    first one seen. *)
Theorem device_list_unique_by_address :
  (forall ts m device,
     devices (addDevice ts m device)
     = if bool_decide (AddressStr device ∈ addresses (devices m))
       then devices m else devices m ++ [device])
  /\ (forall ts m0 found,
        NoDup (addresses (devices (addDevices (scanStart ts m0) found)))
        /\ (length (devices (addDevices (scanStart ts m0) found))
            <= length (remove_dups (addresses (map snd found))))%nat
        /\ (forall a,
              find (hasAddress a)
                   (devices (addDevices (scanStart ts m0) found))
              = find (hasAddress a) (map snd found))).
Proof.
  split; [intros; apply addDevice_devices |].
  intros ts m0 found.
  destruct (addDevices_invariant found (scanStart ts m0)) as (H1 & H2 & H3).
  change (devices (scanStart ts m0)) with (@nil DeviceInfo) in *.
  cbn [app] in *.
  assert (Hnd : NoDup (addresses (devices (addDevices (scanStart ts m0) found))))
    by (apply H1; apply NoDup_nil; exact I).
  split; [exact Hnd |]. split; [| exact H3].
  replace (length (devices (addDevices (scanStart ts m0) found)))
    with (length (addresses (devices (addDevices (scanStart ts m0) found))))
    by (unfold addresses; apply length_map).
  apply submseteq_length. apply NoDup_submseteq; [exact Hnd |].
  intros a Ha. apply elem_of_remove_dups. apply H2. exact Ha.
Qed.

Example same_address_twice :
  devices (addDevices (mkModel [] 0 true [])
    [("12:00:00", mkDeviceInfo "ILCE-7M4" (mkAddress "AA:BB:CC:DD:EE:FF")
                               "AA:BB:CC:DD:EE:FF" (-45));
     ("12:00:01", mkDeviceInfo "Alpha" (mkAddress "AA:BB:CC:DD:EE:FF")
                               "AA:BB:CC:DD:EE:FF" (-60))])
  = [mkDeviceInfo "ILCE-7M4" (mkAddress "AA:BB:CC:DD:EE:FF")
                  "AA:BB:CC:DD:EE:FF" (-45)].
Proof. vm_compute. reflexivity. Qed.

(** * Further properties *)

(** ** Connecting *)

Lemma Connect_nil_facts radio address c w c' w' :
  Connect radio address (c, w) = (None, (c', w')) ->
  state c' = Connected
  /\ lastError c' = None
  /\ deviceName c' = Address_String address
  /\ adapter_Connect radio w address = (device c', None)
  /\ links w' = device c' :: links w
  /\ (exists others,
        device_DiscoverServices radio w' (device c') [ServiceUUID]
        = (service c' :: others, None))
  /\ (exists others,
        service_DiscoverCharacteristics radio w' (service c')
          [CharacteristicUUID]
        = (char c' :: others, None))
  /\ writes w' = writes w
  /\ stopScan c' = stopScan c.
Proof.
  unfold Connect. run. cbn.
  destruct (adapter_Connect radio w address) as [d [e |]] eqn:Hc; cbn;
    [discriminate |].
  destruct (device_DiscoverServices radio _ d [ServiceUUID])
    as [[| s0 ss] [e |]] eqn:Hs; cbn; try discriminate.
  destruct (service_DiscoverCharacteristics radio _ s0 [CharacteristicUUID])
    as [[| c0 cs] [e |]] eqn:Hch; cbn; try discriminate.
  intros H. inversion H; subst; clear H. cbn.
  repeat split; try reflexivity.
  - exists ss. exact Hs.
  - exists cs. exact Hch.
Qed.

(** X1: when [Connect] returns nil, the three steps of the handshake all
    succeeded on the radio: the link is the one [adapter.Connect] gave and
    it is open, the service and the characteristic are the first ones the
    discoveries returned for the two fixed UUIDs; the client is
    [Connected], its last error is cleared, and its device name is the
    string form of the address.  Nothing was written. *)
Theorem Connect_success radio address c w c' w' :
  Connect radio address (c, w) = (None, (c', w')) ->
  state c' = Connected
  /\ lastError c' = None
  /\ deviceName c' = Address_String address
  /\ adapter_Connect radio w address = (device c', None)
  /\ links w' = device c' :: links w
  /\ (exists others,
        device_DiscoverServices radio w' (device c') [ServiceUUID]
        = (service c' :: others, None))
  /\ (exists others,
        service_DiscoverCharacteristics radio w' (service c')
          [CharacteristicUUID]
        = (char c' :: others, None))
  /\ writes w' = writes w
  /\ stopScan c' = stopScan c.
Proof. exact (Connect_nil_facts radio address c w c' w'). Qed.

Lemma Connect_success_witness :
  Connect radioOk cameraAddress (freshClient, world0)
  = (None, connectedSys)
  /\ deviceName (fst connectedSys) = "AA:BB:CC:DD:EE:FF".
Proof.
  split; [vm_compute; reflexivity |].
  apply (Connect_success radioOk cameraAddress freshClient world0
           (fst connectedSys) (snd connectedSys)).
  vm_compute. reflexivity.
Defined.

Lemma Connect_error_facts radio address c w e c' w' :
  Connect radio address (c, w) = (Some e, (c', w')) ->
  isConnectError e
  /\ lastError c' = Some e
  /\ state c' = Error
  /\ char c' = char c
  /\ deviceName c' = deviceName c
  /\ writes w' = writes w.
Proof.
  assert (Hforms :
    forall prefix cause,
      wrapError prefix cause = e ->
      prefix = "failed to connect: "
      \/ prefix = "failed to discover services: "
      \/ prefix = "failed to discover characteristics: " ->
      isConnectError e).
  { unfold isConnectError. intros prefix cause <- [-> | [-> | ->]]; eauto 8. }
  unfold Connect. run. cbn.
  destruct (adapter_Connect radio w address) as [d [e0 |]] eqn:Hc; cbn.
  { intros H. inversion H; subst; clear H. cbn.
    split; [eapply Hforms; eauto | repeat split; reflexivity]. }
  destruct (device_DiscoverServices radio _ d [ServiceUUID])
    as [[| s0 ss] [e0 |]] eqn:Hs; cbn.
  1, 3: intros H; inversion H; subst; clear H; cbn;
    (split; [eapply Hforms; eauto | repeat split; reflexivity]).
  { intros H. inversion H; subst; clear H. cbn.
    split; [unfold isConnectError; auto | repeat split; reflexivity]. }
  destruct (service_DiscoverCharacteristics radio _ s0 [CharacteristicUUID])
    as [[| c0 cs] [e0 |]] eqn:Hch; cbn.
  1, 3: intros H; inversion H; subst; clear H; cbn;
    (split; [eapply Hforms; eauto | repeat split; reflexivity]).
  { intros H. inversion H; subst; clear H. cbn.
    split; [unfold isConnectError; auto 6 | repeat split; reflexivity]. }
  discriminate.
Qed.

(** X2: when [Connect] returns an error, that error is one of its five
    failure errors and is also the client's last error, the state is
    [Error], the characteristic handle and the device name are what they
    were before the call (a name left by an earlier connection stays),
    and nothing was written. *)
Theorem Connect_failure radio address c w e c' w' :
  Connect radio address (c, w) = (Some e, (c', w')) ->
  isConnectError e
  /\ lastError c' = Some e
  /\ state c' = Error
  /\ char c' = char c
  /\ deviceName c' = deviceName c
  /\ writes w' = writes w.
Proof. exact (Connect_error_facts radio address c w e c' w'). Qed.

Lemma Connect_failure_witness :
  Connect radioNoService cameraAddress connectedSys
  = (Some (errorString "Sony camera service not found"),
     snd (Connect radioNoService cameraAddress connectedSys))
  /\ deviceName (fst (snd (Connect radioNoService cameraAddress connectedSys)))
     = deviceName (fst connectedSys).
Proof.
  split; [vm_compute; reflexivity |].
  apply (Connect_failure radioNoService cameraAddress
           (fst connectedSys) (snd connectedSys)
           (errorString "Sony camera service not found")
           (fst (snd (Connect radioNoService cameraAddress connectedSys)))
           (snd (snd (Connect radioNoService cameraAddress connectedSys)))).
  vm_compute. reflexivity.
Defined.

(** ** Disconnecting *)

Lemma Disconnect_unconnected radio c w :
  state c <> Connected ->
  Disconnect radio (c, w)
  = (None, (set_deviceName "" (set_state Disconnected c), w)).
Proof.
  intros Hs. unfold Disconnect. run.
  destruct (decide (state c = Connected)); [contradiction | reflexivity].
Qed.

(** X3: a handshake that fails after the link was opened leaves the link
    open: [Connect] returns without closing it, and the [Disconnect] that
    follows makes no call to the radio either, since the state is [Error]
    and not [Connected]; it returns nil with the link still open. *)
Theorem failed_handshake_leaves_link_open radio address c w e c' w' :
  Connect radio address (c, w) = (Some e, (c', w')) ->
  snd (adapter_Connect radio w address) = None ->
  links w' = fst (adapter_Connect radio w address) :: links w
  /\ Disconnect radio (c', w')
     = (None, (set_deviceName "" (set_state Disconnected c'), w')).
Proof.
  intros Hfail Hlink.
  assert (Hst : state c' = Error)
    by (destruct (Connect_error_facts _ _ _ _ _ _ _ Hfail) as (_ & _ & H & _);
        exact H).
  split.
  - revert Hfail. unfold Connect. run. cbn.
    destruct (adapter_Connect radio w address) as [d [e0 |]] eqn:Hc; cbn in *;
      [discriminate |].
    destruct (device_DiscoverServices radio _ d [ServiceUUID])
      as [[| s0 ss] [e0 |]]; cbn;
      try (intros H; inversion H; subst; reflexivity).
    destruct (service_DiscoverCharacteristics radio _ s0 [CharacteristicUUID])
      as [[| c0 cs] [e0 |]]; cbn;
      intros H; inversion H; subst; reflexivity.
  - apply Disconnect_unconnected. rewrite Hst. discriminate.
Qed.

Lemma failed_handshake_leaves_link_open_witness :
  links (snd (snd (Connect radioNoService cameraAddress (freshClient, world0))))
  = [1%N]
  /\ fst (Disconnect radioNoService
            (snd (Connect radioNoService cameraAddress (freshClient, world0))))
     = None
  /\ links (snd (snd (Disconnect radioNoService
              (snd (Connect radioNoService cameraAddress
                      (freshClient, world0))))))
     = [1%N].
Proof.
  pose proof (failed_handshake_leaves_link_open radioNoService cameraAddress
    freshClient world0 (errorString "Sony camera service not found")
    (fst (snd (Connect radioNoService cameraAddress (freshClient, world0))))
    (snd (snd (Connect radioNoService cameraAddress (freshClient, world0))))
    ltac:(vm_compute; reflexivity) ltac:(reflexivity)) as [H1 H2].
  split; [exact H1 |].
  split; [vm_compute; reflexivity | vm_compute; reflexivity].
Defined.

(** X4: [Disconnect] on a client that is not [Connected] talks to no
    device: it returns nil, sets [Disconnected], clears the device name,
    and leaves the last error, the handles and the outside as they were;
    a second [Disconnect] after one that failed therefore reports success
    without trying to close the link again. *)
Theorem Disconnect_when_not_connected radio c w :
  state c <> Connected ->
  Disconnect radio (c, w)
  = (None, (set_deviceName "" (set_state Disconnected c), w))
  /\ lastError (fst (snd (Disconnect radio (c, w)))) = lastError c
  /\ char (fst (snd (Disconnect radio (c, w)))) = char c
  /\ fst (Disconnect radio (snd (Disconnect radio (c, w)))) = None
  /\ snd (Disconnect radio (snd (Disconnect radio (c, w))))
     = snd (Disconnect radio (c, w)).
Proof.
  intros Hs. rewrite (Disconnect_unconnected radio c w Hs). cbn [fst snd].
  split; [reflexivity |]. split; [reflexivity |]. split; [reflexivity |].
  rewrite Disconnect_unconnected by (cbn; discriminate).
  split; reflexivity.
Qed.

Lemma Disconnect_when_not_connected_witness :
  state freshClient <> Connected
  /\ Disconnect radioDisconnectFails (freshClient, world0)
     = (None, (freshClient, world0)).
Proof.
  split; [discriminate |].
  apply (Disconnect_when_not_connected radioDisconnectFails freshClient world0).
  discriminate.
Defined.

(** X5: after [Disconnect], whatever it returned, the client is not
    [Connected]: a command sent next fails with the not-connected error
    and makes no write, although the handles of the old connection are
    still in the client. *)
Theorem SendCommand_after_Disconnect radio cmd s :
  SendCommand radio cmd (snd (Disconnect radio s))
  = (Some errNotConnected, snd (Disconnect radio s))
  /\ char (fst (snd (Disconnect radio s))) = char (fst s)
  /\ service (fst (snd (Disconnect radio s))) = service (fst s)
  /\ device (fst (snd (Disconnect radio s))) = device (fst s).
Proof.
  destruct s as [c w].
  assert (H : state (fst (snd (Disconnect radio (c, w)))) <> Connected
              /\ char (fst (snd (Disconnect radio (c, w)))) = char c
              /\ service (fst (snd (Disconnect radio (c, w)))) = service c
              /\ device (fst (snd (Disconnect radio (c, w)))) = device c).
  { unfold Disconnect. run.
    destruct (decide (state c = Connected)); cbn;
      [destruct (device_Disconnect radio w (device c)); cbn |];
      repeat split; discriminate. }
  destruct H as (Hs & Hc & Hsv & Hd).
  split; [| auto].
  destruct (snd (Disconnect radio (c, w))) as [c1 w1].
  apply SendCommand_unconnected. exact Hs.
Qed.

(** ** Stopping a scan *)

Lemma StopScan_client s :
  fst (snd (StopScan s))
  = set_state (if decide (state (fst s) = Scanning)
               then Disconnected else state (fst s))
      (set_stopScan (if decide (length (stopScan (fst s)) < 1)%nat
                     then stopScan (fst s) ++ [true] else stopScan (fst s))
         (fst s))
  /\ snd (snd (StopScan s))
     = mkWorld (writes (snd s)) (slept (snd s)) (links (snd s))
               (S (stopScanCalls (snd s))) (scanTasks (snd s)).
Proof.
  destruct s as [c w]. unfold StopScan. run.
  destruct (decide (length (stopScan c) < 1)%nat); cbn;
    destruct (decide (state c = Scanning)); cbn; split; try reflexivity;
    destruct c; reflexivity.
Qed.

Lemma StopScan_again s :
  fst (snd (StopScan (snd (StopScan s)))) = fst (snd (StopScan s))
  /\ stopScanCalls (snd (snd (StopScan (snd (StopScan s)))))
     = S (S (stopScanCalls (snd s)))
  /\ stopScan (fst (snd (StopScan s))) <> []
  /\ state (fst (snd (StopScan s))) <> Scanning
  /\ lastError (fst (snd (StopScan s))) = lastError (fst s)
  /\ deviceName (fst (snd (StopScan s))) = deviceName (fst s)
  /\ char (fst (snd (StopScan s))) = char (fst s)
  /\ writes (snd (snd (StopScan s))) = writes (snd s).
Proof.
  destruct (StopScan_client s) as [Hc Hw].
  destruct (StopScan_client (snd (StopScan s))) as [Hc2 Hw2].
  assert (Hne : stopScan (fst (snd (StopScan s))) <> []).
  { rewrite Hc. cbn.
    destruct (decide (length (stopScan (fst s)) < 1)%nat) as [Hl | Hl].
    - intros H. apply (f_equal length) in H. rewrite length_app in H.
      simpl in H. lia.
    - intros H. rewrite H in Hl. simpl in Hl. lia. }
  assert (Hns : state (fst (snd (StopScan s))) <> Scanning).
  { rewrite Hc. cbn. destruct (decide (state (fst s) = Scanning));
      [discriminate | assumption]. }
  split.
  { rewrite Hc2.
    destruct (decide (state (fst (snd (StopScan s))) = Scanning));
      [contradiction |].
    destruct (decide (length (stopScan (fst (snd (StopScan s)))) < 1)%nat)
      as [Hl | Hl].
    - exfalso. destruct (stopScan (fst (snd (StopScan s))));
        [contradiction | simpl in Hl; lia].
    - destruct (fst (snd (StopScan s))). reflexivity. }
  split; [rewrite Hw2, Hw; reflexivity |].
  split; [exact Hne |]. split; [exact Hns |].
  rewrite Hc, Hw. repeat split.
Qed.

(** X6: [StopScan] assigns the state only when it is [Scanning], to
    [Disconnected], and keeps every other state; the device, service and
    characteristic handles, the device name and the last error are
    kept; the one-slot channel [stopScan] gets a token unless it holds
    one already; [adapter.StopScan()] is called once and nothing else
    happens to the outside.  [StopScan] can be called any number of
    times: a second call leaves the client exactly as the first did (its
    token is dropped, the channel being full), only
    [adapter.StopScan()] is called again. *)
Theorem StopScan_idempotent s :
  state (fst (snd (StopScan s)))
  = (if decide (state (fst s) = Scanning) then Disconnected
     else state (fst s))
  /\ stopScan (fst (snd (StopScan s)))
     = (if decide (length (stopScan (fst s)) < 1)%nat
        then stopScan (fst s) ++ [true] else stopScan (fst s))
  /\ device (fst (snd (StopScan s))) = device (fst s)
  /\ service (fst (snd (StopScan s))) = service (fst s)
  /\ char (fst (snd (StopScan s))) = char (fst s)
  /\ deviceName (fst (snd (StopScan s))) = deviceName (fst s)
  /\ lastError (fst (snd (StopScan s))) = lastError (fst s)
  /\ snd (snd (StopScan s))
     = mkWorld (writes (snd s)) (slept (snd s)) (links (snd s))
               (S (stopScanCalls (snd s))) (scanTasks (snd s))
  /\ fst (snd (StopScan (snd (StopScan s)))) = fst (snd (StopScan s))
  /\ snd (snd (StopScan (snd (StopScan s))))
     = mkWorld (writes (snd s)) (slept (snd s)) (links (snd s))
               (S (S (stopScanCalls (snd s)))) (scanTasks (snd s))
  /\ stopScanCalls (snd (snd (StopScan (snd (StopScan s)))))
     = S (S (stopScanCalls (snd s)))
  /\ stopScan (fst (snd (StopScan s))) <> []
  /\ state (fst (snd (StopScan s))) <> Scanning
  /\ writes (snd (snd (StopScan s))) = writes (snd s).
Proof.
  destruct (StopScan_client s) as [Hc Hw].
  destruct (StopScan_client (snd (StopScan s))) as [_ Hw2].
  destruct (StopScan_again s) as (Hagain & Hcalls & Hne & Hns & _).
  split; [rewrite Hc; reflexivity |].
  split; [rewrite Hc; reflexivity |].
  split; [rewrite Hc; reflexivity |].
  split; [rewrite Hc; reflexivity |].
  split; [rewrite Hc; reflexivity |].
  split; [rewrite Hc; reflexivity |].
  split; [rewrite Hc; reflexivity |].
  split; [exact Hw |].
  split; [exact Hagain |].
  split; [rewrite Hw2, Hw; reflexivity |].
  split; [exact Hcalls |].
  split; [exact Hne |].
  split; [exact Hns |].
  rewrite Hw. reflexivity.
Qed.

(** ** The last error *)

(** X7: of the operations that return nil, only [ScanForDevices] and
    [Connect] clear the last error; [StopScan], [Disconnect] and
    [SendCommand] leave an error recorded earlier in place, so
    [LastError()] may report a failure older than the last, successful,
    call. *)
Theorem lastError_after_success radio op s :
  fst (perform radio op s) = None ->
  lastError (fst (snd (perform radio op s)))
  = match op with
    | OpScanForDevices | OpConnect _ => None
    | OpStopScan | OpDisconnect | OpSendCommand _ => lastError (fst s)
    end.
Proof.
  destruct s as [c w]. destruct op as [| | address | | cmd]; cbn [perform].
  - intros _. reflexivity.
  - intros _. unfold bind, ret.
    pose proof (StopScan_client (c, w)) as [Hc _].
    destruct (StopScan (c, w)) as [u [c1 w1]]. cbn [fst snd] in *.
    rewrite Hc. reflexivity.
  - intros H.
    destruct (Connect radio address (c, w)) as [r [c' w']] eqn:Hr.
    cbn [fst] in H. subst r.
    destruct (Connect_nil_facts _ _ _ _ _ _ Hr) as (_ & Hl & _). exact Hl.
  - unfold Disconnect. run.
    destruct (decide (state c = Connected)); cbn;
      [destruct (device_Disconnect radio w (device c)); cbn |];
      intros H; try discriminate; reflexivity.
  - destruct (decide (state c = Connected)) as [Hs | Hs].
    + rewrite (SendCommand_connected radio cmd c w Hs). cbv zeta.
      destruct (char_WriteWithoutResponse radio w (char c) (Code cmd));
        cbn; intros H; [discriminate | reflexivity].
    + rewrite (SendCommand_unconnected radio cmd c w Hs). discriminate.
Qed.

Lemma lastError_after_success_witness :
  lastError (fst (snd
    (perform radioOk (OpSendCommand focus_down)
       (snd (SendCommand radioWriteFails focus_down connectedSys)))))
  = Some (errSend focus_down (errorString "write rejected")).
Proof.
  rewrite (lastError_after_success radioOk (OpSendCommand focus_down)
             (snd (SendCommand radioWriteFails focus_down connectedSys)));
    vm_compute; reflexivity.
Defined.

(** ** The scan goroutine *)

Lemma selectCancel_default pick ctxDone c w :
  stopScan c = [] -> ctxDone = false ->
  selectCancel pick ctxDone (c, w) = (SelDefault, (c, w)).
Proof.
  intros Hs ->. unfold selectCancel. run. rewrite Hs. reflexivity.
Qed.

Lemma selectCancel_not_default pick ctxDone c w :
  stopScan c <> [] \/ ctxDone = true ->
  fst (selectCancel pick ctxDone (c, w)) <> SelDefault.
Proof.
  unfold selectCancel. run.
  destruct (stopScan c) as [| t rest], ctxDone, pick; cbn;
    intros [H | H]; congruence.
Qed.

Lemma scanCallback_Some_iff pick ctxDone result s d :
  fst (scanCallback pick ctxDone result s) = Some d
  <-> stopScan (fst s) = []
      /\ ctxDone = false
      /\ containsSonyIdentifier (LocalName result) = true
      /\ d = mkDeviceInfo (LocalName result) (SAddress result)
               (Address_String (SAddress result)) (SRSSI result)
      /\ snd (scanCallback pick ctxDone result s) = s.
Proof.
  destruct s as [c w]. unfold scanCallback. unfold bind at 1. split.
  - intros H.
    destruct (stopScan c) as [| t rest] eqn:Hs.
    + destruct ctxDone.
      * exfalso. revert H. unfold selectCancel. run. rewrite Hs.
        cbn. discriminate.
      * rewrite (selectCancel_default pick false c w Hs eq_refl) in *.
        destruct (decide (LocalName result = "")) as [He | He];
          [discriminate H |].
        destruct (containsSonyIdentifier (LocalName result)) eqn:Hf;
          [| discriminate H].
        cbn in H. inversion H. repeat split; [exact Hs |].
        unfold bind.
        rewrite (selectCancel_default pick false c w Hs eq_refl).
        destruct (decide (LocalName result = "")); [contradiction |].
        reflexivity.
    + exfalso. revert H. unfold selectCancel. run. rewrite Hs.
      destruct ctxDone, pick; cbn; discriminate.
  - cbn [fst]. intros (Hs & -> & Hf & -> & _).
    rewrite (selectCancel_default pick false c w Hs eq_refl).
    destruct (decide (LocalName result = "")) as [He | He].
    + rewrite He in Hf. vm_compute in Hf. discriminate.
    + rewrite Hf. reflexivity.
Qed.

(** X8: the callback of the scan sends a record on [deviceChan] exactly
    when no stop token is pending, the context is not cancelled and the
    advertised name passes [containsSonyIdentifier] (the test for an
    empty name adds nothing to that); the record carries the name, the
    address, the string form of that address and the signal strength of
    the advertisement, and the client is left as it was. *)
Theorem scanCallback_sends_iff pick ctxDone result s d :
  fst (scanCallback pick ctxDone result s) = Some d
  <-> stopScan (fst s) = []
      /\ ctxDone = false
      /\ containsSonyIdentifier (LocalName result) = true
      /\ d = mkDeviceInfo (LocalName result) (SAddress result)
               (Address_String (SAddress result)) (SRSSI result)
      /\ snd (scanCallback pick ctxDone result s) = s.
Proof. exact (scanCallback_Some_iff pick ctxDone result s d). Qed.

(** X9: a stop token that nobody received is still in the channel when
    the next scan starts: after [StopScan] and then [ScanForDevices], the
    new goroutine receives the token at its first [select] and returns
    before it ever calls [adapter.Scan], while the client goes on
    reporting [Scanning] with no error. *)
Theorem stale_stop_token_ends_next_scan pick s :
  stopScan (fst (snd (ScanForDevices (snd (StopScan s))))) <> []
  /\ fst (taskSelect pick false (snd (ScanForDevices (snd (StopScan s)))))
     = Exited
  /\ state (fst (snd (taskSelect pick false
              (snd (ScanForDevices (snd (StopScan s)))))))
     = Scanning
  /\ lastError (fst (snd (taskSelect pick false
                  (snd (ScanForDevices (snd (StopScan s)))))))
     = None.
Proof.
  destruct (StopScan_again s) as (_ & _ & Hne & _).
  destruct (StopScan s) as [u [c1 w1]]. cbn [fst snd] in *.
  unfold ScanForDevices, taskSelect, selectCancel. run. cbn.
  destruct (stopScan c1) as [| t rest]; [contradiction |].
  cbn. repeat split. discriminate.
Qed.

(** X10: a stop token received by the callback is lost to the loop: if
    an advertisement arrives after [StopScan] put its token, the callback
    takes the token and sends nothing, and when [adapter.Scan] then
    returns without error the [select] of the loop finds no token and the
    goroutine scans again, although the client has left [Scanning]. *)
Theorem stop_token_taken_by_callback_restarts_scan pick result s :
  stopScan (fst s) = [] ->
  let afterStop := snd (StopScan s) in
  let afterCallback := snd (scanCallback pick false result afterStop) in
  let afterReturn := snd (taskScanReturned None afterCallback) in
  fst (scanCallback pick false result afterStop) = None
  /\ stopScan (fst afterCallback) = []
  /\ fst (taskScanReturned None afterCallback) = AtSelect
  /\ fst (taskSelect pick false afterReturn) = InScan
  /\ state (fst (snd (taskSelect pick false afterReturn))) <> Scanning.
Proof.
  intros Hs. cbv zeta.
  destruct (StopScan_client s) as [Hc _].
  destruct (StopScan_again s) as (_ & _ & _ & Hns & _).
  destruct (StopScan s) as [u [c1 w1]]. cbn [fst snd] in *.
  assert (Ht : stopScan c1 = [true]).
  { rewrite Hc, Hs. cbn. reflexivity. }
  unfold scanCallback, taskScanReturned, taskSelect, selectCancel. run.
  rewrite Ht. cbn. repeat split. exact Hns.
Qed.

Lemma stop_token_taken_by_callback_restarts_scan_witness :
  fst (taskSelect true false
         (snd (taskScanReturned None
            (snd (scanCallback true false
                    (mkScanResult "ILCE-7M4" cameraAddress (-45))
                    (snd (StopScan
                       (snd (ScanForDevices (freshClient, world0)))))))))) 
  = InScan.
Proof.
  apply (stop_token_taken_by_callback_restarts_scan true
           (mkScanResult "ILCE-7M4" cameraAddress (-45))
           (snd (ScanForDevices (freshClient, world0)))).
  reflexivity.
Defined.

(** X11: a scan that fails puts the client in [Error] with the scan's
    error as last error whatever the client was doing by then, a
    connection made in the meantime included: commands are refused from
    then on, and [Disconnect], finding the state not [Connected], returns
    nil without closing the link, which stays open. *)
Theorem scan_failure_overrides_connection radio e cmd c w :
  let after := snd (taskScanReturned (Some e) (c, w)) in
  fst (taskScanReturned (Some e) (c, w)) = Exited
  /\ state (fst after) = Error
  /\ lastError (fst after) = Some e
  /\ SendCommand radio cmd after = (Some errNotConnected, after)
  /\ fst (Disconnect radio after) = None
  /\ snd (snd (Disconnect radio after)) = w.
Proof.
  cbv zeta. unfold taskScanReturned. run. cbn.
  repeat split.
Qed.

(** X12: connecting to a device the scan delivered names the connection
    after the device's address string, not after its advertised name:
    [DeviceName()] then returns the [AddressStr] of the record. *)
Theorem DeviceName_is_address_of_scanned_device
  radio pick ctxDone result s0 d s c' w' :
  fst (scanCallback pick ctxDone result s0) = Some d ->
  Connect radio (DAddress d) s = (None, (c', w')) ->
  fst (DeviceName (c', w')) = AddressStr d.
Proof.
  intros Hd Hc. apply scanCallback_Some_iff in Hd.
  destruct Hd as (_ & _ & _ & -> & _).
  destruct s as [c w].
  destruct (Connect_nil_facts _ _ _ _ _ _ Hc) as (_ & _ & Hn & _).
  cbn. exact Hn.
Qed.

Lemma DeviceName_is_address_of_scanned_device_witness :
  fst (DeviceName connectedSys) = "AA:BB:CC:DD:EE:FF".
Proof.
  apply (DeviceName_is_address_of_scanned_device radioOk true false
           (mkScanResult "ILCE-7M4" cameraAddress (-45))
           (freshClient, world0)
           (mkDeviceInfo "ILCE-7M4" cameraAddress "AA:BB:CC:DD:EE:FF" (-45))
           (freshClient, world0) (fst connectedSys) (snd connectedSys));
    vm_compute; reflexivity.
Defined.

(** ** Sequences, sleeping and the photo *)

Lemma SendCommandSequence_unconnected radio commands delay c w :
  state c <> Connected ->
  SendCommandSequence radio commands delay (c, w)
  = (match commands with [] => None | _ :: _ => Some errNotConnected end,
     (c, w)).
Proof.
  intros Hs. destruct commands as [| cmd rest]; [reflexivity |].
  cbn [SendCommandSequence]. unfold bind.
  rewrite (SendCommand_unconnected radio cmd c w Hs). reflexivity.
Qed.

(** X13: on a client that is not [Connected], a sequence of one command
    or more returns the not-connected error of its first command, with
    nothing written and no time slept; the empty sequence returns nil all
    the same, since no command is there to be refused. *)
Theorem SendCommandSequence_not_connected radio commands delay c w :
  state c <> Connected ->
  SendCommandSequence radio commands delay (c, w)
  = (match commands with [] => None | _ :: _ => Some errNotConnected end,
     (c, w)).
Proof. exact (SendCommandSequence_unconnected radio commands delay c w). Qed.

Lemma SendCommandSequence_not_connected_witness :
  TakePhoto radioOk (freshClient, world0)
  = (Some errNotConnected, (freshClient, world0))
  /\ SendCommandSequence radioOk [] 0 (freshClient, world0)
     = (None, (freshClient, world0)).
Proof.
  split.
  - apply (SendCommandSequence_not_connected radioOk TakePhotoSequence
             (50 * Millisecond) freshClient world0).
    discriminate.
  - apply (SendCommandSequence_not_connected radioOk [] 0 freshClient world0).
    discriminate.
Defined.

Lemma successes_app (l k : list WriteCall) :
  successes (l ++ k) = (successes l + successes k)%nat.
Proof. unfold successes. rewrite filter_app, length_app. reflexivity. Qed.

Lemma successes_failed ch data cause :
  successes [mkWriteCall ch data (Some cause)] = 0%nat.
Proof.
  unfold successes. rewrite filter_cons_False by (cbn; discriminate).
  reflexivity.
Qed.

Lemma successes_ok ch data : successes [mkWriteCall ch data None] = 1%nat.
Proof.
  unfold successes. rewrite filter_cons_True by reflexivity. reflexivity.
Qed.

Lemma sleepFor_0 delay : sleepFor delay 0 = 0%Z.
Proof. unfold sleepFor. destruct (decide (delay > 0)%Z); lia. Qed.

Lemma sleepFor_S delay n :
  sleepFor delay (S n)
  = ((if decide (delay > 0)%Z then delay else 0) + sleepFor delay n)%Z.
Proof. unfold sleepFor. destruct (decide (delay > 0)%Z); lia. Qed.

Lemma SendCommandSequence_cons radio cmd rest delay s :
  SendCommandSequence radio (cmd :: rest) delay s
  = match SendCommand radio cmd s with
    | (Some e, s') => (Some e, s')
    | (None, s') =>
        SendCommandSequence radio rest delay
          (snd ((if decide (delay > 0)%Z then time_Sleep delay else ret tt)
                  s'))
    end.
Proof.
  cbn [SendCommandSequence]. unfold bind at 1.
  destruct (SendCommand radio cmd s) as [[e |] s']; [reflexivity |].
  unfold bind.
  destruct ((if decide (delay > 0)%Z then time_Sleep delay else ret tt) s').
  reflexivity.
Qed.

Lemma SendCommandSequence_sleeps radio delay commands :
  forall c w,
    exists new,
      writes (snd (snd (SendCommandSequence radio commands delay (c, w))))
      = writes w ++ new
      /\ slept (snd (snd (SendCommandSequence radio commands delay (c, w))))
         = (slept w + sleepFor delay (successes new))%Z
      /\ links (snd (snd (SendCommandSequence radio commands delay (c, w))))
         = links w.
Proof.
  induction commands as [| cmd rest IH]; intros c w.
  - exists []. cbn. rewrite app_nil_r.
    change (successes []) with 0%nat. rewrite sleepFor_0.
    repeat split. lia.
  - rewrite SendCommandSequence_cons.
    destruct (decide (state c = Connected)) as [Hs | Hs].
    + rewrite (SendCommand_connected radio cmd c w Hs). cbv zeta.
      destruct (char_WriteWithoutResponse radio w (char c) (Code cmd))
        as [cause |] eqn:Hw.
      * exists [mkWriteCall (char c) (Code cmd) (Some cause)].
        cbn [fst snd writes slept links].
        rewrite successes_failed, sleepFor_0.
        repeat split. lia.
      * set (w1 := mkWorld (writes w ++ [mkWriteCall (char c) (Code cmd) None])
                     (slept w) (links w) (stopScanCalls w) (scanTasks w)).
        destruct (decide (delay > 0)%Z) as [Hd | Hd].
        -- unfold time_Sleep, modWorld. cbn [fst snd].
           match goal with
           | |- context [SendCommandSequence radio rest delay (?c0, ?w0)] =>
               destruct (IH c0 w0) as (new & Hwr & Hsl & Hl)
           end.
           exists (mkWriteCall (char c) (Code cmd) None :: new).
           rewrite Hwr, Hsl, Hl. subst w1. cbn [writes slept links].
           split; [rewrite <- app_assoc; reflexivity |].
           split; [| reflexivity].
           change (mkWriteCall (char c) (Code cmd) None :: new)
             with ([mkWriteCall (char c) (Code cmd) None] ++ new).
           rewrite successes_app, successes_ok.
           cbn [Nat.add]. rewrite sleepFor_S.
           destruct (decide (delay > 0)%Z); [lia | contradiction].
        -- unfold ret. cbn [fst snd].
           destruct (IH c w1) as (new & Hwr & Hsl & Hl).
           exists (mkWriteCall (char c) (Code cmd) None :: new).
           rewrite Hwr, Hsl, Hl. subst w1. cbn [writes slept links].
           split; [rewrite <- app_assoc; reflexivity |].
           split; [| reflexivity].
           unfold sleepFor.
           destruct (decide (delay > 0)%Z); [contradiction | reflexivity].
    + rewrite (SendCommand_unconnected radio cmd c w Hs).
      exists []. cbn [fst snd]. rewrite app_nil_r.
      change (successes []) with 0%nat. rewrite sleepFor_0.
      repeat split. lia.
Qed.

Lemma SendCommandSequence_app radio l1 l2 delay s :
  SendCommandSequence radio (l1 ++ l2) delay s
  = match SendCommandSequence radio l1 delay s with
    | (Some e, s') => (Some e, s')
    | (None, s') => SendCommandSequence radio l2 delay s'
    end.
Proof.
  revert s. induction l1 as [| cmd l1 IH]; intros s; [reflexivity |].
  rewrite <- app_comm_cons, !SendCommandSequence_cons.
  destruct (SendCommand radio cmd s) as [[e |] s']; [reflexivity |].
  apply IH.
Qed.

(** One more command sent: its call is logged and [delay] slept. *)
Lemma worldAfter_snoc c w sent cmd delay :
  worldAfter c w (sent ++ [cmd]) delay
  = snd (snd ((if decide (delay > 0)%Z then time_Sleep delay else ret tt)
                (c, mkWorld (writes (worldAfter c w sent delay)
                             ++ [mkWriteCall (char c) (Code cmd) None])
                            (slept (worldAfter c w sent delay)) (links w)
                            (stopScanCalls w) (scanTasks w)))).
Proof.
  unfold worldAfter, okCalls. rewrite map_app, length_app, app_assoc.
  cbn [map length writes slept]. rewrite Nat.add_1_r, sleepFor_S.
  destruct (decide (delay > 0)%Z); cbn; f_equal; lia.
Qed.

Lemma worldAfter_nil c w delay : worldAfter c w [] delay = w.
Proof.
  unfold worldAfter, okCalls. cbn [map length]. rewrite sleepFor_0, app_nil_r.
  destruct w; cbn. f_equal. lia.
Qed.

(** [SendCommandSequence] on a connected client, seen from a point where
    the commands [sent] have gone out. *)
Lemma SendCommandSequence_from radio delay c w :
  state c = Connected ->
  forall sent,
    fst (SendCommandSequence radio sent delay (c, w)) = None ->
    snd (SendCommandSequence radio sent delay (c, w))
    = (c, worldAfter c w sent delay).
Proof.
  intros Hs sent. induction sent as [| cmd sent IH] using rev_ind.
  - intros _. cbn. rewrite worldAfter_nil. reflexivity.
  - rewrite SendCommandSequence_app.
    destruct (SendCommandSequence radio sent delay (c, w)) as [[e |] s1] eqn:Hp;
      [discriminate |].
    specialize (IH eq_refl). cbn [snd] in IH. subst s1.
    rewrite SendCommandSequence_cons, (SendCommand_connected radio cmd c _ Hs).
    cbv zeta.
    destruct (char_WriteWithoutResponse radio (worldAfter c w sent delay)
                (char c) (Code cmd)) as [cause |]; [discriminate |].
    intros _. rewrite worldAfter_snoc.
    cbn [SendCommandSequence ret snd].
    destruct (decide (delay > 0)%Z); reflexivity.
Qed.

Lemma SendCommandSequence_next radio delay c w sent cmd rest :
  state c = Connected ->
  fst (SendCommandSequence radio sent delay (c, w)) = None ->
  SendCommandSequence radio (sent ++ cmd :: rest) delay (c, w)
  = match char_WriteWithoutResponse radio (worldAfter c w sent delay)
            (char c) (Code cmd) with
    | None =>
        SendCommandSequence radio rest delay
          (c, worldAfter c w (sent ++ [cmd]) delay)
    | Some cause =>
        (Some (errSend cmd cause),
         (set_lastError (Some (errSend cmd cause)) c,
          mkWorld (writes w ++ okCalls c sent
                   ++ [mkWriteCall (char c) (Code cmd) (Some cause)])
                  (slept w + sleepFor delay (length sent))
                  (links w) (stopScanCalls w) (scanTasks w)))
    end.
Proof.
  intros Hs Hsent.
  pose proof (SendCommandSequence_from radio delay c w Hs sent Hsent) as Hw.
  rewrite SendCommandSequence_app.
  destruct (SendCommandSequence radio sent delay (c, w)) as [r s1].
  cbn [fst snd] in *. subst r s1.
  rewrite SendCommandSequence_cons, (SendCommand_connected radio cmd c _ Hs).
  cbv zeta.
  destruct (char_WriteWithoutResponse radio (worldAfter c w sent delay)
              (char c) (Code cmd)) as [cause |].
  - unfold worldAfter. cbn [writes slept links stopScanCalls scanTasks].
    rewrite <- app_assoc. reflexivity.
  - rewrite worldAfter_snoc.
    destruct (decide (delay > 0)%Z); reflexivity.
Qed.

(** X14: [SendCommandSequence] sleeps [delay] once after every write that
    succeeded, before the next command is handed to the radio, and after
    the last one too: on a connected client, once the commands [sent]
    have gone out, the write of the next command is put to the radio
    when their calls are logged and [delay] was slept once for each of
    them; if that write fails the sequence ends there without another
    sleep, otherwise it goes on with one more sleep done; a sequence
    that returns nil has slept once per command.  In every case the time
    slept is [delay] times the number of successful writes, nothing with
    a delay of zero or less, and no link is opened or closed. *)
Theorem SendCommandSequence_sleeps_after_each_success
  radio commands delay c w :
  slept (snd (snd (SendCommandSequence radio commands delay (c, w))))
  = (slept w
     + sleepFor delay
         (successes
            (newWrites w (snd (SendCommandSequence radio commands delay
                                 (c, w))))))%Z
  /\ links (snd (snd (SendCommandSequence radio commands delay (c, w))))
     = links w
  /\ (forall sent cmd rest,
        commands = sent ++ cmd :: rest ->
        state c = Connected ->
        fst (SendCommandSequence radio sent delay (c, w)) = None ->
        snd (SendCommandSequence radio sent delay (c, w))
        = (c, worldAfter c w sent delay)
        /\ SendCommandSequence radio commands delay (c, w)
           = match char_WriteWithoutResponse radio
                     (worldAfter c w sent delay) (char c) (Code cmd) with
             | None =>
                 SendCommandSequence radio rest delay
                   (c, worldAfter c w (sent ++ [cmd]) delay)
             | Some cause =>
                 (Some (errSend cmd cause),
                  (set_lastError (Some (errSend cmd cause)) c,
                   mkWorld (writes w ++ okCalls c sent
                            ++ [mkWriteCall (char c) (Code cmd) (Some cause)])
                           (slept w + sleepFor delay (length sent))
                           (links w) (stopScanCalls w) (scanTasks w)))
             end)
  /\ (state c = Connected ->
      fst (SendCommandSequence radio commands delay (c, w)) = None ->
      snd (SendCommandSequence radio commands delay (c, w))
      = (c, worldAfter c w commands delay)).
Proof.
  destruct (SendCommandSequence_sleeps radio delay commands c w)
    as (new & Hwr & Hsl & Hl).
  split; [unfold newWrites; rewrite Hwr, drop_app_length; exact Hsl |].
  split; [exact Hl |].
  split.
  - intros sent cmd rest -> Hs Hsent. split.
    + apply SendCommandSequence_from; assumption.
    + apply SendCommandSequence_next; assumption.
  - intros Hs Hnil. apply SendCommandSequence_from; assumption.
Qed.

Lemma SendCommandSequence_sleeps_after_each_success_witness :
  SendCommandSequence radioNeedsSpacing [focus_down; shutter_full_down]
    (50 * Millisecond) connectedSys
  = (None,
     (fst connectedSys,
      mkWorld [mkWriteCall 1%N [x01; x07] None; mkWriteCall 1%N [x01; x09] None]
              100000000 [1%N] 0 0))
  /\ fst (SendCommandSequence radioNeedsSpacing [focus_down; shutter_full_down]
            0 connectedSys)
     = Some (errSend shutter_full_down (errorString "too soon")).
Proof.
  split.
  - destruct (SendCommandSequence_sleeps_after_each_success radioNeedsSpacing
                [focus_down; shutter_full_down] (50 * Millisecond)
                (fst connectedSys) (snd connectedSys))
      as (_ & _ & Hnext & _).
    destruct (Hnext [focus_down] shutter_full_down [] eq_refl eq_refl eq_refl)
      as [_ H].
    exact H.
  - destruct (SendCommandSequence_sleeps_after_each_success radioNeedsSpacing
                [focus_down; shutter_full_down] 0
                (fst connectedSys) (snd connectedSys))
      as (_ & _ & Hnext & _).
    destruct (Hnext [focus_down] shutter_full_down [] eq_refl eq_refl eq_refl)
      as [_ H].
    exact (f_equal fst H).
Defined.

(** The four commands of the photo sequence. *)
Lemma TakePhotoSequence_commands :
  TakePhotoSequence
  = [ mkSonyCommand "Focus Down" [x01; x07];
      mkSonyCommand "Shutter Full Down" [x01; x09];
      mkSonyCommand "Shutter Full Up" [x01; x08];
      mkSonyCommand "Focus Up" [x01; x06] ].
Proof. vm_compute. reflexivity. Qed.

(** X15: [TakePhoto] returns nil exactly when the client is [Connected]
    and the radio takes the four writes 01 07, 01 09, 01 08, 01 06, each
    put to it with the writes before it logged and 50 ms slept after each
    of them: the first with nothing slept, the second after 50 ms, the
    third after 100 ms, the fourth after 150 ms.  It has then written
    exactly these four byte-codes in this order and slept 200 ms in all,
    the last 50 ms after the fourth write; the client and the rest of the
    outside are unchanged. *)
Theorem TakePhoto_success radio c w c' w' :
  let call := fun code => mkWriteCall (char c) code None in
  let after := fun (ms : Z) (calls : list WriteCall) =>
    mkWorld (writes w ++ calls) (slept w + ms * Millisecond)%Z
            (links w) (stopScanCalls w) (scanTasks w) in
  TakePhoto radio (c, w) = (None, (c', w'))
  <-> state c = Connected
      /\ char_WriteWithoutResponse radio w (char c) [x01; x07] = None
      /\ char_WriteWithoutResponse radio
           (after 50%Z [call [x01; x07]]) (char c) [x01; x09] = None
      /\ char_WriteWithoutResponse radio
           (after 100%Z [call [x01; x07]; call [x01; x09]])
           (char c) [x01; x08] = None
      /\ char_WriteWithoutResponse radio
           (after 150%Z [call [x01; x07]; call [x01; x09]; call [x01; x08]])
           (char c) [x01; x06] = None
      /\ c' = c
      /\ writes w'
         = writes w ++ [ mkWriteCall (char c) [x01; x07] None;
                         mkWriteCall (char c) [x01; x09] None;
                         mkWriteCall (char c) [x01; x08] None;
                         mkWriteCall (char c) [x01; x06] None ]
      /\ slept w' = (slept w + 200 * Millisecond)%Z
      /\ links w' = links w
      /\ stopScanCalls w' = stopScanCalls w
      /\ scanTasks w' = scanTasks w.
Proof.
  cbv zeta. unfold TakePhoto. rewrite TakePhotoSequence_commands.
  destruct (decide (state c = Connected)) as [Hs | Hs].
  2: { rewrite SendCommandSequence_cons,
         (SendCommand_unconnected radio _ c w Hs).
       split; [discriminate | intros [H _]; contradiction]. }
  set (d := (50 * Millisecond)%Z).
  assert (Hd : (d > 0)%Z) by reflexivity.
  assert (Hstep : forall cmd rest calls ms,
    SendCommandSequence radio (cmd :: rest) d
      (c, mkWorld (writes w ++ calls) (slept w + ms * Millisecond)
                  (links w) (stopScanCalls w) (scanTasks w))
    = match char_WriteWithoutResponse radio
              (mkWorld (writes w ++ calls) (slept w + ms * Millisecond)
                       (links w) (stopScanCalls w) (scanTasks w))
              (char c) (Code cmd) with
      | Some e =>
          (Some (errSend cmd e),
           (set_lastError (Some (errSend cmd e)) c,
            mkWorld ((writes w ++ calls)
                     ++ [mkWriteCall (char c) (Code cmd) (Some e)])
                    (slept w + ms * Millisecond)
                    (links w) (stopScanCalls w) (scanTasks w)))
      | None =>
          SendCommandSequence radio rest d
            (c, mkWorld (writes w
                         ++ calls ++ [mkWriteCall (char c) (Code cmd) None])
                        (slept w + (ms + 50) * Millisecond)
                        (links w) (stopScanCalls w) (scanTasks w))
      end).
  { intros cmd rest calls ms.
    rewrite SendCommandSequence_cons, (SendCommand_connected radio cmd c _ Hs).
    cbv zeta. cbn [writes slept links stopScanCalls scanTasks].
    destruct (char_WriteWithoutResponse radio _ (char c) (Code cmd));
      [reflexivity |].
    destruct (decide (d > 0)%Z); [| contradiction].
    unfold time_Sleep, modWorld. cbn [fst snd writes slept links
                                      stopScanCalls scanTasks].
    rewrite <- app_assoc. do 3 f_equal. subst d. lia. }
  assert (Hw0 : w = mkWorld (writes w ++ []) (slept w + 0 * Millisecond)
                      (links w) (stopScanCalls w) (scanTasks w)).
  { destruct w; cbn. rewrite app_nil_r. f_equal. lia. }
  rewrite Hw0 at 1. rewrite Hstep. rewrite <- Hw0. cbn [Code app Z.add].
  destruct (char_WriteWithoutResponse radio w (char c) [x01; x07]);
    [split; [discriminate | intros (_ & H & _); discriminate] |].
  rewrite Hstep. cbn [Code app Z.add Pos.add Pos.succ].
  destruct (char_WriteWithoutResponse radio _ (char c) [x01; x09]);
    [split; [discriminate | intros (_ & _ & H & _); discriminate] |].
  rewrite Hstep. cbn [Code app Z.add Pos.add Pos.succ].
  destruct (char_WriteWithoutResponse radio _ (char c) [x01; x08]);
    [split; [discriminate | intros (_ & _ & _ & H & _); discriminate] |].
  rewrite Hstep. cbn [Code app Z.add Pos.add Pos.succ].
  destruct (char_WriteWithoutResponse radio _ (char c) [x01; x06]);
    [split; [discriminate | intros (_ & _ & _ & _ & H & _); discriminate] |].
  cbn [SendCommandSequence ret].
  split.
  - intros H. inversion H; subst; clear H.
    cbn [writes slept links stopScanCalls scanTasks].
    repeat split. exact Hs.
  - intros (_ & _ & _ & _ & _ & -> & Hwr & Hsl & Hl & Hst & Hsc).
    destruct w' as [wr sl li st sc]. cbn in Hwr, Hsl, Hl, Hst, Hsc. subst.
    reflexivity.
Qed.

Lemma TakePhoto_success_witness :
  TakePhoto radioNeedsSpacing connectedSys
  = (None,
     (fst connectedSys,
      mkWorld [ mkWriteCall 1%N [x01; x07] None;
                mkWriteCall 1%N [x01; x09] None;
                mkWriteCall 1%N [x01; x08] None;
                mkWriteCall 1%N [x01; x06] None ]
              200000000 [1%N] 0 0))
  /\ slept (snd (snd (TakePhoto radioOk connectedSys))) = 200000000%Z.
Proof.
  split.
  - apply (proj2 (TakePhoto_success radioNeedsSpacing
                    (fst connectedSys) (snd connectedSys) _ _)).
    repeat split.
  - apply (proj1 (TakePhoto_success radioOk
                    (fst connectedSys) (snd connectedSys)
                    (fst (snd (TakePhoto radioOk connectedSys)))
                    (snd (snd (TakePhoto radioOk connectedSys))))).
    vm_compute. reflexivity.
Defined.

(** ** More on the name filter *)

Lemma append_assoc_string (a b c : string) :
  (a +:+ b) +:+ c = a +:+ b +:+ c.
Proof.
  induction a as [| ch a IH]; [reflexivity |].
  rewrite !append_cons, IH. reflexivity.
Qed.

(** X16: the filter only looks for an identifier somewhere in the name,
    so text put before or after a name that passes never makes it fail:
    any name with a passing name inside it passes. *)
Theorem containsSonyIdentifier_monotone before name after :
  containsSonyIdentifier name = true ->
  containsSonyIdentifier (before +:+ name +:+ after) = true.
Proof.
  intros H. apply outerLoop_contains in H.
  destruct H as (id & Hin & pre & post & ->).
  apply outerLoop_contains. exists id. split; [exact Hin |].
  exists (before +:+ pre), (post +:+ after).
  rewrite !append_assoc_string. reflexivity.
Qed.

Lemma containsSonyIdentifier_monotone_witness :
  containsSonyIdentifier ("My " +:+ "FX30" +:+ " (2)") = true.
Proof.
  apply (containsSonyIdentifier_monotone "My " "FX30" " (2)").
  vm_compute. reflexivity.
Defined.

(** X17: a name shorter than two bytes never passes the filter, the
    shortest identifiers ("FX" and the alpha symbol) being two bytes
    long. *)
Theorem containsSonyIdentifier_short_name name :
  (len name < 2)%nat -> containsSonyIdentifier name = false.
Proof.
  intros H. destruct name as [| c1 [| c2 rest]].
  - reflexivity.
  - reflexivity.
  - exfalso. unfold len in H. simpl in H. lia.
Qed.

Lemma containsSonyIdentifier_short_name_witness :
  containsSonyIdentifier "F" = false.
Proof.
  apply (containsSonyIdentifier_short_name "F"). unfold len. simpl. lia.
Defined.

(** ** The log of the model *)

(** X18: [addLog] never lets the log grow past ten lines: on a log of at
    most ten lines it appends the new line, stamped with the time, and,
    if that makes eleven, drops the oldest; the new line is always the
    last one, and the device list is untouched. *)
Theorem addLog_keeps_ten timestamp message m :
  (length (logs m) <= 10)%nat ->
  (length (logs (addLog timestamp message m)) <= 10)%nat
  /\ last (logs (addLog timestamp message m))
     = Some ("[" +:+ timestamp +:+ "] " +:+ message)
  /\ logs (addLog timestamp message m)
     = (if decide (length (logs m) = 10%nat)
        then drop 1 (logs m) else logs m)
       ++ ["[" +:+ timestamp +:+ "] " +:+ message]
  /\ devices (addLog timestamp message m) = devices m.
Proof.
  intros Hl. unfold addLog. cbn [logs devices].
  rewrite length_app. cbn [length].
  destruct (decide (10 < length (logs m) + 1)%nat) as [Hgt | Hle].
  - assert (Hten : length (logs m) = 10%nat) by lia.
    destruct (decide (length (logs m) = 10%nat)); [| contradiction].
    destruct (logs m) as [| l0 ls] eqn:Hlogs; [simpl in Hten; lia |].
    cbn [app drop]. rewrite drop_0.
    split; [rewrite length_app; simpl in *; lia |].
    split; [apply last_snoc |].
    split; reflexivity.
  - destruct (decide (length (logs m) = 10%nat)); [lia |].
    split; [rewrite length_app; simpl; lia |].
    split; [apply last_snoc |].
    split; reflexivity.
Qed.

Lemma addLog_keeps_ten_witness :
  (length (logs (addLog "12:00:00" "eleventh"
     (mkModel [] 0 false ["1";"2";"3";"4";"5";"6";"7";"8";"9";"10"])))
   <= 10)%nat.
Proof.
  apply (addLog_keeps_ten "12:00:00" "eleventh"
           (mkModel [] 0 false ["1";"2";"3";"4";"5";"6";"7";"8";"9";"10"])).
  simpl. lia.
Defined.

(** X19: [getLastLogs(n)] panics exactly when [n] is negative; for
    [n >= 0] it returns the last [n] lines of the log, or the whole log
    when that has no more than [n] lines. *)
Theorem getLastLogs_last_lines m n :
  (getLastLogs m n = None <-> (n < 0)%Z)
  /\ (forall lines,
        getLastLogs m n = Some lines ->
        lines = drop (length (logs m) - Z.to_nat n) (logs m)
        /\ length lines = Nat.min (Z.to_nat n) (length (logs m))).
Proof.
  unfold getLastLogs. cbv zeta.
  destruct (decide (Z.of_nat (length (logs m)) <= n)%Z) as [Hle | Hgt].
  - split; [split; [discriminate | lia] |].
    intros lines H. inversion H; subst.
    replace (length (logs m) - Z.to_nat n)%nat with 0%nat by lia.
    rewrite drop_0. split; [reflexivity | lia].
  - destruct (decide (0 <= Z.of_nat (length (logs m)) - n
                      <= Z.of_nat (length (logs m)))%Z) as [Hin | Hout].
    + split; [split; [discriminate | lia] |].
      intros lines H. inversion H; subst.
      replace (Z.to_nat (Z.of_nat (length (logs m)) - n))
        with (length (logs m) - Z.to_nat n)%nat by lia.
      split; [reflexivity |]. rewrite length_drop. lia.
    + split; [split; [lia | reflexivity] | discriminate].
Qed.

(** ** The widths of the views *)

Lemma wrapInt_id x :
  (- 2 ^ 63 <= x < 2 ^ 63)%Z -> wrapInt x = x.
Proof.
  intros H. unfold wrapInt.
  rewrite Z.mod_small by lia. lia.
Qed.

Lemma wrapInt_range x : (- 2 ^ 63 <= wrapInt x < 2 ^ 63)%Z.
Proof.
  unfold wrapInt.
  pose proof (Z.mod_pos_bound (x + 2 ^ 63) (2 ^ 64) ltac:(lia)). lia.
Qed.

(** X20: for every window width (a 64-bit [int]), the two views compute
    the same container width, at least 60, and the same log width, at
    least 40 and never more than the container width; above a width of
    20 the log box is at least 10 narrower than the container, but up to
    20 it is 60 wide, as wide as a container of the minimal width. *)
Theorem view_widths width :
  (- 2 ^ 63 <= width < 2 ^ 63)%Z ->
  containerWidth_control width = containerWidth_deviceList width
  /\ (60 <= containerWidth_deviceList width)%Z
  /\ (40 <= logWidth width <= containerWidth_deviceList width)%Z
  /\ (if decide (width > 20)%Z
      then (logWidth width + 10 <= containerWidth_deviceList width)%Z
      else logWidth width = 60%Z).
Proof.
  intros Hw.
  unfold containerWidth_control, containerWidth_deviceList, logWidth.
  cbv zeta.
  pose proof (wrapInt_range (width - 2)) as Hr.
  destruct (decide (width > 20)%Z) as [Hbig | Hsmall].
  - rewrite (wrapInt_id (width - 12)) by lia.
    rewrite (wrapInt_id (width - 2)) by lia.
    destruct (decide (width - 2 < 60)%Z), (decide (width - 12 < 40)%Z); lia.
  - destruct (decide (60 < 40)%Z); [lia |].
    destruct (decide (wrapInt (width - 2) < 60)%Z); lia.
Qed.

Lemma view_widths_witness :
  (40 <= logWidth 80 <= containerWidth_deviceList 80)%Z.
Proof.
  apply (view_widths 80). lia.
Defined.

(** ** What the model keeps true *)

Lemma addLog_length timestamp message m :
  (length (logs m) <= 10)%nat ->
  (length (logs (addLog timestamp message m)) <= 10)%nat.
Proof.
  intros Hl. unfold addLog. cbn [logs].
  rewrite length_app. cbn [length].
  destruct (decide (10 < length (logs m) + 1)%nat).
  - rewrite length_drop, length_app. simpl. lia.
  - rewrite length_app. simpl. lia.
Qed.

Lemma addLog_last timestamp message m :
  last (logs (addLog timestamp message m))
  = Some ("[" +:+ timestamp +:+ "] " +:+ message).
Proof.
  unfold addLog. cbn [logs].
  destruct (decide (10 < length (logs m ++ _))%nat) as [Hgt | _];
    [| apply last_snoc].
  destruct (logs m) as [| l0 ls]; [simpl in Hgt; lia |].
  cbn [app drop]. rewrite drop_0. apply last_snoc.
Qed.

Lemma wellFormed_log message a : wellFormed a -> wellFormed (log message a).
Proof.
  intros (Hs & Hl & Hd & Hp). repeat split; try assumption; try apply Hp.
  apply addLog_length. exact Hl.
Qed.

Lemma wellFormed_found d a : wellFormed a -> wellFormed (found d a).
Proof.
  intros Hwf. unfold found.
  destruct (alreadyExists (devices (model a)) d) eqn:Hex; [exact Hwf |].
  destruct Hwf as (Hs & Hl & Hd & Hp).
  assert (Hm : addDevice (clock a (reads a)) (model a) d
               = addLog (clock a (reads a))
                   ("Found: " +:+ DName d +:+ " (" +:+ AddressStr d +:+ ")")
                   (mkModel (devices (model a) ++ [d]) (selected (model a))
                            (scanning (model a)) (logs (model a)))).
  { unfold addDevice. rewrite Hex. reflexivity. }
  unfold wellFormed, selectionOk, logOk, devicesOk, spinnerOk.
  cbn [model set_reads set_model spinnerIndex].
  split; [rewrite Hm; exact Hs |].
  split; [rewrite Hm; apply addLog_length; exact Hl |].
  split; [apply addDevice_NoDup; exact Hd | exact Hp].
Qed.

Ltac frame_wf H :=
  destruct H as (?Hs & ?Hl & ?Hd & ?Hp);
  unfold wellFormed, selectionOk, logOk, devicesOk, spinnerOk in *;
  cbn [model set_model set_mode set_cancelled set_deviceChan set_size
       set_spinnerIndex set_buttonStates set_reads set_devices set_selected
       set_scanning press devices selected scanning logs spinnerIndex
       addresses map];
  repeat split; try assumption; try apply NoDup_nil_2; try lia.

Lemma deviceListSwitch_wellFormed key a s :
  wellFormed a ->
  exists a' s' cmds,
    deviceListSwitch key a s = Some (a', s', cmds) /\ wellFormed a'.
Proof.
  intros Hwf. unfold deviceListSwitch, stopScanning.
  destruct (decide (key = "q" \/ key = "ctrl+c")).
  { eexists _, _, _. split; [reflexivity | exact Hwf]. }
  destruct (decide (key = "tab")).
  { destruct (negb (scanning (model a)));
      (eexists _, _, _; split; [reflexivity | exact Hwf]). }
  destruct (decide (key = "up" \/ key = "k")).
  { destruct (decide (selected (model a) > 0)%Z);
      [| eexists _, _, _; split; [reflexivity | exact Hwf]].
    eexists _, _, _. split; [reflexivity |].
    frame_wf Hwf. }
  destruct (decide (key = "down" \/ key = "j")).
  { destruct (decide (selected (model a) < numDevices a - 1)%Z);
      [| eexists _, _, _; split; [reflexivity | exact Hwf]].
    eexists _, _, _. split; [reflexivity |].
    frame_wf Hwf. }
  destruct (decide (key = "enter")).
  { destruct (decide (numDevices a > 0 /\ selected (model a) < numDevices a)%Z)
      as [[Hn Hlt] | Hno];
      [| eexists _, _, _; split; [reflexivity | exact Hwf]].
    assert (Hsel : (0 <= selected (model a))%Z) by apply Hwf.
    unfold deviceAt. destruct (decide (0 <= selected (model a))%Z); [| lia].
    destruct (devices (model a) !! Z.to_nat (selected (model a)))
      as [device |] eqn:Hlook.
    - eexists _, _, _. split; [reflexivity |].
      apply wellFormed_log. exact Hwf.
    - exfalso. apply lookup_ge_None in Hlook. unfold numDevices in Hlt. lia. }
  destruct (decide (key = "esc" \/ key = "escape")).
  { destruct (scanning (model a));
      [| eexists _, _, _; split; [reflexivity | exact Hwf]].
    eexists _, _, _. split; [reflexivity |].
    apply wellFormed_log. exact Hwf. }
  eexists _, _, _. split; [reflexivity | exact Hwf].
Qed.

Lemma handleControlKeys_wellFormed radio msg a s :
  wellFormed a ->
  exists a' s' cmds,
    handleControlKeys radio msg a s = Some (a', s', cmds) /\ wellFormed a'.
Proof.
  intros Hwf. unfold handleControlKeys. cbv zeta.
  destruct (decide (KString msg = "q" \/ KString msg = "ctrl+c")).
  { eexists _, _, _. split; [reflexivity | exact Hwf]. }
  destruct (decide (KString msg = "esc" \/ KString msg = "backspace")).
  { eexists _, _, _. split; [reflexivity |].
    apply wellFormed_log. frame_wf Hwf. }
  destruct (controlButton (KString msg)) as [[name command] |].
  { eexists _, _, _. split; [reflexivity | exact Hwf]. }
  destruct (decide (KString msg = " ")).
  - eexists _, _, _. split; [reflexivity |].
    apply wellFormed_log. exact Hwf.
  - eexists _, _, _. split; [reflexivity | exact Hwf].
Qed.

Lemma Update_wellFormed radio msg a s :
  wellFormed a ->
  exists a' s' cmds,
    Update radio msg a s = Some (a', s', cmds) /\ wellFormed a'.
Proof.
  intros Hwf. destruct msg as [w h | k | | | | d | connected err
                              | command err |]; cbn [Update].
  - eexists _, _, _. split; [reflexivity | exact Hwf].
  - unfold handleKeyPress. destruct (mode a).
    + unfold handleDeviceListKeys. cbv zeta.
      match goal with
      | |- context [log ?m a] => set (a1 := log m a)
      end.
      assert (Hwf1 : wellFormed a1) by (apply wellFormed_log; exact Hwf).
      destruct (bool_decide (KType k = KeyEsc) && scanning (model a1)).
      * unfold stopScanning. eexists _, _, _. split; [reflexivity |].
        apply wellFormed_log. exact Hwf1.
      * apply deviceListSwitch_wellFormed. exact Hwf1.
    + apply handleControlKeys_wellFormed. exact Hwf.
  - destruct (scanning (model a));
      [| eexists _, _, _; split; [reflexivity | exact Hwf]].
    eexists _, _, _. split; [reflexivity |].
    pose proof (Z.rem_bound_pos (wrapInt (spinnerIndex a + 1)) 4) as Hb.
    assert (Hw : wrapInt (spinnerIndex a + 1) = (spinnerIndex a + 1)%Z).
    { apply wrapInt_id. destruct Hwf as (_ & _ & _ & Hp).
      unfold spinnerOk in Hp. lia. }
    rewrite Hw in *.
    destruct Hwf as (Hs & Hl & Hd & Hp).
    unfold wellFormed, selectionOk, logOk, devicesOk, spinnerOk in *.
    cbn [model set_spinnerIndex spinnerIndex].
    repeat split; try assumption; lia.
  - eexists _, _, _. split; [reflexivity |].
    destruct Hwf as (Hs & Hl & Hd & Hp).
    unfold wellFormed, selectionOk, logOk, devicesOk, spinnerOk in *.
    cbn [model set_reads set_model spinnerIndex].
    unfold scanStart.
    split; [cbn; lia |].
    split; [apply addLog_length; exact Hl |].
    split; [cbn; apply NoDup_nil_2 | exact Hp].
  - destruct (scanning (model a)).
    + destruct (decide (numDevices (set_model (set_scanning false (model a)) a)
                        > 0)%Z);
        (eexists _, _, _; split; [reflexivity |]);
        apply wellFormed_log; frame_wf Hwf.
    + eexists _, _, _. split; [reflexivity |]. frame_wf Hwf.
  - cbv zeta. pose proof (wellFormed_found d a Hwf) as Hf.
    destruct (scanning (model (found d a)));
      (eexists _, _, _; split; [reflexivity | exact Hf]).
  - destruct err as [e |];
      [| destruct connected];
      (eexists _, _, _; split; [reflexivity |]).
    + apply wellFormed_log. exact Hwf.
    + pose proof (wellFormed_log ("Connected to " +:+ fst (DeviceName s)) a Hwf)
        as H. frame_wf H.
    + pose proof (wellFormed_log "Disconnected" a Hwf) as H. frame_wf H.
  - cbv zeta.
    destruct err as [e |];
      (eexists _, _, _; split; [reflexivity |]);
      apply wellFormed_log; frame_wf Hwf.
  - eexists _, _, _. split; [reflexivity | exact Hwf].
Qed.

(** X21: the model stays well formed and [Update] never panics: [NewModel]
    makes a model whose selection index is not negative, whose log has at
    most ten lines, whose devices have distinct address strings and whose
    spinner index is within 0..3, and from such a model [Update] handles
    every message without panicking (the index into the device list taken
    on Enter is always within range) and returns such a model again. *)
Theorem model_stays_well_formed radio :
  (forall version clock a c,
     NewModel radio version clock = (Some (a, c), None) -> wellFormed a)
  /\ (forall msg a s,
        wellFormed a ->
        exists a' s' cmds,
          Update radio msg a s = Some (a', s', cmds) /\ wellFormed a').
Proof.
  split; [| intros msg a s; apply Update_wellFormed].
  intros version clock a c H. unfold NewModel in H.
  destruct (NewClient radio) as [[client |] err]; [| discriminate].
  inversion H; subst; clear H.
  apply wellFormed_log.
  unfold wellFormed, selectionOk, logOk, devicesOk, spinnerOk. cbn.
  repeat split; try lia. apply NoDup_nil_2.
Qed.

Example Update_panics_on_negative_selection :
  Update radioOk (keyMsg (mkKeyMsg "enter" 13))
    (set_model
       (mkModel [mkDeviceInfo "ILCE-7M4" cameraAddress "AA:BB:CC:DD:EE:FF"
                   (-45)] (-1) false []) freshApp)
    (freshClient, world0)
  = None.
Proof. vm_compute. reflexivity. Qed.

(** X22: on a well-formed model the spinner frame that [deviceListView]
    takes from its table of four by [m.spinnerIndex % 4] is always
    there: the lookup does not panic. *)
Theorem spinnerFrame_in_range a :
  wellFormed a -> exists frame, spinnerFrame a = Some frame.
Proof.
  intros (_ & _ & _ & Hp). unfold spinnerOk in Hp. unfold spinnerFrame.
  cbv zeta. rewrite Z.rem_small by lia.
  destruct (decide (0 <= spinnerIndex a)%Z); [| lia].
  apply lookup_lt_is_Some_2. simpl. lia.
Qed.

Lemma spinnerFrame_in_range_witness :
  exists frame, spinnerFrame freshApp = Some frame.
Proof.
  apply (spinnerFrame_in_range freshApp).
  unfold wellFormed, selectionOk, logOk, devicesOk, spinnerOk.
  split; [simpl; lia |].
  split; [vm_compute; lia |].
  split; [simpl; apply NoDup_nil_2 | simpl; lia].
Defined.

(** ** Commands started from the keyboard *)

Lemma Commands_lookup_entry key cmd :
  Commands !! key = Some cmd -> (key, cmd) ∈ CommandEntries.
Proof.
  unfold Commands. intros H. apply elem_of_list_to_map_2 in H. exact H.
Qed.

(** A closed string is none of the closed strings of a list. *)
Ltac not_in_list :=
  let H := fresh "H" in
  intros H; apply list_elem_of_In in H; simpl in H; intuition discriminate.

Lemma CommandEntries_codes :
  Forall (fun kv => (2 <= length (Code (snd kv)) <= 3)%nat
                    /\ Name (snd kv) ∉ buttonNames)
         CommandEntries.
Proof.
  unfold CommandEntries.
  repeat (apply Forall_cons; split;
          [split; [simpl; lia | not_in_list] |]).
  apply Forall_nil. exact I.
Qed.

(** X23: the command of a key never writes anything but the byte-code
    of a registered command: for a key that is not in the registry
    [sendCommand] reports "unknown command" and leaves the client and the
    outside untouched; for a registered key it makes at most one write,
    of that command's byte-code, two or three bytes long, and reports the
    command under its display name with what [SendCommand] returned. *)
Theorem sendCommand_writes_registered_code radio key c w :
  match Commands !! key with
  | None =>
      sendCommand radio key (c, w)
      = (commandSentMsg key
           (Some (errorString ("unknown command: " +:+ key))),
         (c, w))
  | Some cmd =>
      sendCommand radio key (c, w)
      = (commandSentMsg (Name cmd) (fst (SendCommand radio cmd (c, w))),
         snd (SendCommand radio cmd (c, w)))
      /\ (2 <= length (Code cmd) <= 3)%nat
      /\ (newWrites w (snd (sendCommand radio key (c, w))) = []
          \/ exists r,
               newWrites w (snd (sendCommand radio key (c, w)))
               = [mkWriteCall (char c) (Code cmd) r])
  end.
Proof.
  unfold sendCommand.
  destruct (Commands !! key) as [cmd |] eqn:Hk; [| reflexivity].
  assert (Hsend : (cmd0 <- SendCommand radio cmd;;
                   ret (commandSentMsg (Name cmd) cmd0)) (c, w)
                  = (commandSentMsg (Name cmd)
                       (fst (SendCommand radio cmd (c, w))),
                     snd (SendCommand radio cmd (c, w)))).
  { unfold bind, ret. destruct (SendCommand radio cmd (c, w)). reflexivity. }
  rewrite Hsend. split; [reflexivity |]. split.
  - pose proof CommandEntries_codes as Hall.
    rewrite Forall_forall in Hall.
    apply Commands_lookup_entry in Hk.
    apply (Hall (key, cmd) Hk).
  - unfold newWrites. cbn [snd].
    destruct (decide (state c = Connected)) as [Hs | Hs].
    + rewrite (SendCommand_connected radio cmd c w Hs). cbv zeta.
      right. exists (char_WriteWithoutResponse radio w (char c) (Code cmd)).
      destruct (char_WriteWithoutResponse radio w (char c) (Code cmd));
        cbn [snd writes]; rewrite drop_app_length; reflexivity.
    + rewrite (SendCommand_unconnected radio cmd c w Hs). cbn [snd].
      left. apply drop_all.
Qed.

Lemma Update_commandSent radio command err a s :
  exists a',
    Update radio (commandSentMsg command err) a s = Some (a', s, [])
    /\ buttonStates a' = <[command := false]> (buttonStates a).
Proof.
  cbn [Update]. destruct err as [e |]; eexists; split; reflexivity.
Qed.

Lemma controlButton_registered key name command :
  controlButton key = Some (name, command) ->
  name ∈ buttonNames /\ exists cmd, Commands !! command = Some cmd.
Proof.
  unfold controlButton, buttonNames.
  repeat case_decide; intros Heq; inversion Heq; subst; clear Heq;
    (split; [apply list_elem_of_In; simpl; tauto
            | eexists; vm_compute; reflexivity]).
Qed.

(** X24: no message that comes back from a command started by a control
    key switches a lit button off: the message names the command by its
    display name (or "Take Photo"), [Update] resets the button state under
    that name, and no button is kept under such a name; so a button
    lit by a key press stays lit. *)
Theorem lit_button_stays_lit radio cmd s1 msg a s2 name :
  startedByControlKey cmd ->
  fst (runClientCmd radio cmd s1) = Some msg ->
  name ∈ buttonNames ->
  button a name = true ->
  exists a' cmds,
    Update radio msg a s2 = Some (a', s2, cmds) /\ button a' name = true.
Proof.
  intros Hcmd Hmsg Hname Hlit.
  assert (Hform : exists command err,
            msg = commandSentMsg command err /\ command ∉ buttonNames).
  { destruct Hcmd as [-> | (key & name' & command & Hkey & ->)].
    - cbn [runClientCmd] in Hmsg. unfold takePhoto, bind, ret in Hmsg.
      destruct (TakePhoto radio s1) as [err s']. cbn in Hmsg.
      inversion Hmsg; subst. exists "Take Photo", err.
      split; [reflexivity | not_in_list].
    - destruct (controlButton_registered _ _ _ Hkey) as [_ [c0 Hc0]].
      cbn [runClientCmd] in Hmsg. unfold sendCommand in Hmsg.
      rewrite Hc0 in Hmsg. unfold bind, ret in Hmsg.
      destruct (SendCommand radio c0 s1) as [err s']. cbn in Hmsg.
      inversion Hmsg; subst. exists (Name c0), err.
      split; [reflexivity |].
      pose proof CommandEntries_codes as Hall.
      rewrite Forall_forall in Hall.
      apply (Hall (command, c0) (Commands_lookup_entry _ _ Hc0)). }
  destruct Hform as (command & err & -> & Hnot).
  destruct (Update_commandSent radio command err a s2) as (a' & Hu & Hb).
  exists a', []. split; [exact Hu |].
  unfold button in *. rewrite Hb.
  rewrite lookup_insert_ne; [exact Hlit |].
  intros ->. contradiction.
Qed.

Lemma lit_button_stays_lit_witness :
  exists a' cmds,
    Update radioOk (commandSentMsg "Focus Down" None)
      (press "focus" controlApp) connectedSys
    = Some (a', connectedSys, cmds)
    /\ button a' "focus" = true.
Proof.
  apply (lit_button_stays_lit radioOk (CmdSendCommand "focus_down")
           connectedSys (commandSentMsg "Focus Down" None)
           (press "focus" controlApp) connectedSys "focus").
  - right. exists "f", "focus", "focus_down". split; reflexivity.
  - vm_compute. reflexivity.
  - unfold buttonNames. left.
  - vm_compute. reflexivity.
Defined.

(** X25: Escape (or Backspace) in control mode goes back to the device
    list and logs "Disconnected" whatever [Disconnect] returned: the
    error is dropped, so after a disconnect that failed the model shows
    the device list while the client is in [Error] with the link still
    open.  The device list is emptied, the selection index is kept. *)
Theorem control_escape_drops_disconnect_error radio key ty a s :
  key = "esc" \/ key = "backspace" ->
  exists a',
    handleControlKeys radio (mkKeyMsg key ty) a s
    = Some (a', snd (Disconnect radio s), [])
    /\ mode a' = ModeDeviceList
    /\ devices (model a') = []
    /\ selected (model a') = selected (model a)
    /\ last (logs (model a'))
       = Some ("[" +:+ clock a (reads a) +:+ "] Disconnected")
    /\ match fst (Disconnect radio s) with
       | Some _ =>
           state (fst (snd (Disconnect radio s))) = Error
           /\ links (snd (snd (Disconnect radio s))) = links (snd s)
       | None => state (fst (snd (Disconnect radio s))) = Disconnected
       end.
Proof.
  intros Hkey. unfold handleControlKeys. cbn [KString]. cbv zeta.
  destruct (decide (key = "q" \/ key = "ctrl+c")) as [[-> | ->] | _];
    [destruct Hkey; discriminate | destruct Hkey; discriminate |].
  destruct (decide (key = "esc" \/ key = "backspace")); [| contradiction].
  eexists. split; [reflexivity |].
  split; [reflexivity |]. split; [reflexivity |]. split; [reflexivity |].
  split.
  { cbn [log model set_reads set_model set_mode clock reads].
    apply addLog_last. }
  destruct s as [c w]. unfold Disconnect. run.
  destruct (decide (state c = Connected)); cbn;
    [destruct (device_Disconnect radio w (device c)); cbn |];
    repeat split.
Qed.

Lemma control_escape_drops_disconnect_error_witness :
  exists a',
    handleControlKeys radioDisconnectFails (mkKeyMsg "esc" KeyEsc)
      controlApp connectedSys
    = Some (a', snd (Disconnect radioDisconnectFails connectedSys), [])
    /\ mode a' = ModeDeviceList.
Proof.
  destruct (control_escape_drops_disconnect_error radioDisconnectFails
              "esc" KeyEsc controlApp connectedSys (or_introl eq_refl))
    as (a' & H1 & H2 & _).
  exists a'. split; assumption.
Defined.

(** ** Connecting from the device list *)

(** X26: the model enters control mode exactly when [Connect] returned
    nil: on the message of the [connect] command, [Update] logs
    "Connected to" with the address string and switches to control mode
    if the connection was made, and logs "Connection failed" with the
    error's text and keeps its mode if not, the client then being in
    [Error]. *)
Theorem connect_message_sets_mode radio d a s :
  exists a',
    Update radio (fst (connect radio d s)) a (snd (connect radio d s))
    = Some (a', snd (Connect radio (DAddress d) s), [])
    /\ match fst (Connect radio (DAddress d) s) with
       | None =>
           mode a' = ModeControl
           /\ last (logs (model a'))
              = Some ("[" +:+ clock a (reads a) +:+ "] " +:+ "Connected to "
                      +:+ Address_String (DAddress d))
           /\ state (fst (snd (Connect radio (DAddress d) s))) = Connected
       | Some e =>
           mode a' = mode a
           /\ last (logs (model a'))
              = Some ("[" +:+ clock a (reads a) +:+ "] "
                      +:+ "Connection failed: " +:+ Error_text e)
           /\ state (fst (snd (Connect radio (DAddress d) s))) = Error
       end.
Proof.
  unfold connect, bind, ret. destruct s as [c w].
  destruct (Connect radio (DAddress d) (c, w)) as [[e |] [c' w']] eqn:Hc;
    cbn [fst snd Update].
  - eexists. split; [reflexivity |].
    split; [reflexivity |]. split; [apply addLog_last |].
    destruct (Connect_error_facts _ _ _ _ _ _ _ Hc) as (_ & _ & H & _).
    exact H.
  - rewrite bool_decide_eq_true_2 by reflexivity.
    eexists. split; [reflexivity |].
    destruct (Connect_nil_facts _ _ _ _ _ _ Hc) as (Hs & _ & Hn & _).
    split; [reflexivity |]. split; [| exact Hs].
    cbn [DeviceName bind getClient ret fst]. unfold DeviceName, bind, ret,
      getClient. cbn [fst]. rewrite Hn. apply addLog_last.
Qed.

(** X27: Enter on a listed device while a scan is running stops the
    client's scan (the client leaves [Scanning]) and hands back the
    command that connects to the selected device, but it does not reset
    the model's own [scanning] flag, which stays set. *)
Theorem enter_while_scanning_keeps_flag radio ty a s device :
  mode a = ModeDeviceList ->
  ty <> KeyEsc ->
  scanning (model a) = true ->
  state (fst s) = Scanning ->
  deviceAt a (selected (model a)) = Some device ->
  exists a',
    Update radio (keyMsg (mkKeyMsg "enter" ty)) a s
    = Some (a', snd (StopScan s), [CmdConnect device])
    /\ scanning (model a') = true
    /\ mode a' = ModeDeviceList
    /\ state (fst (snd (StopScan s))) = Disconnected.
Proof.
  intros Hmode Hty Hscan Hstate Hdev.
  cbn [Update]. unfold handleKeyPress. rewrite Hmode.
  unfold handleDeviceListKeys. cbn [KString KType]. cbv zeta.
  rewrite bool_decide_eq_false_2 by exact Hty. cbn [andb].
  unfold deviceListSwitch.
  destruct (decide ("enter" = "q" \/ "enter" = "ctrl+c")) as [[H | H] | _];
    [discriminate H | discriminate H |].
  destruct (decide ("enter" = "tab")) as [H | _]; [discriminate H |].
  destruct (decide ("enter" = "up" \/ "enter" = "k")) as [[H | H] | _];
    [discriminate H | discriminate H |].
  destruct (decide ("enter" = "down" \/ "enter" = "j")) as [[H | H] | _];
    [discriminate H | discriminate H |].
  destruct (decide ("enter" = "enter")) as [_ | H]; [| contradiction].
  match goal with
  | |- context [log ?m a] => set (a1 := log m a)
  end.
  assert (Hd1 : deviceAt a1 (selected (model a1)) = Some device)
    by exact Hdev.
  assert (Hguard : (numDevices a1 > 0
                    /\ selected (model a1) < numDevices a1)%Z).
  { unfold deviceAt in Hd1.
    destruct (decide (0 <= selected (model a1))%Z); [| discriminate].
    apply lookup_lt_Some in Hd1. unfold numDevices. lia. }
  destruct (decide (numDevices a1 > 0
                    /\ selected (model a1) < numDevices a1)%Z);
    [| contradiction].
  rewrite Hd1.
  assert (Hsc : scanning (model (log ("Connecting to " +:+ DName device
                                      +:+ "...") a1)) = true)
    by exact Hscan.
  rewrite Hsc. eexists. split; [reflexivity |].
  split; [exact Hsc |]. split; [exact Hmode |].
  unfold clientStopScan. rewrite StopScan_state, Hstate.
  destruct (decide (Scanning = Scanning)); [reflexivity | contradiction].
Qed.

Lemma enter_while_scanning_keeps_flag_witness :
  exists a',
    Update radioOk (keyMsg (mkKeyMsg "enter" 13))
      (set_model
         (mkModel [mkDeviceInfo "ILCE-7M4" cameraAddress "AA:BB:CC:DD:EE:FF"
                     (-45)] 0 true []) freshApp)
      (snd (ScanForDevices (freshClient, world0)))
    = Some (a', snd (StopScan (snd (ScanForDevices (freshClient, world0)))),
            [CmdConnect (mkDeviceInfo "ILCE-7M4" cameraAddress
                           "AA:BB:CC:DD:EE:FF" (-45))])
    /\ scanning (model a') = true.
Proof.
  destruct (enter_while_scanning_keeps_flag radioOk 13
              (set_model
                 (mkModel [mkDeviceInfo "ILCE-7M4" cameraAddress
                             "AA:BB:CC:DD:EE:FF" (-45)] 0 true []) freshApp)
              (snd (ScanForDevices (freshClient, world0)))
              (mkDeviceInfo "ILCE-7M4" cameraAddress "AA:BB:CC:DD:EE:FF"
                 (-45))
              eq_refl ltac:(discriminate) eq_refl eq_refl eq_refl)
    as (a' & H1 & H2 & _).
  exists a'. split; assumption.
Defined.
